(** * Verification of the [online] engine processor and the tracker URL remover

    Shallow embedding of
    - [searx/search/processors/online.py]  (module [Online]), and
    - [searx/plugins/tracker_url_remover.py] (module [TrackerUrlRemover]),
    followed by the vocabulary of the statements, concrete engines and
    inputs (modules [Scenario] and [Cases]), and the proofs (modules
    [OnlineFacts], [TrackerFacts], [TrackerMore] and [OnlineMore]).

    Python dictionaries are finite maps from strings to Python values; a
    missing key raises [KeyError] where the source indexes with [d[k]] and
    yields a default where the source uses [d.get(k, default)].  Calls into
    the engine, the network layer, the error recorder and the result
    container are effects: they go through a world state and leave an entry
    in the list of emitted events.  Exceptions are values; only instances of
    [Exception] are considered. *)

From stdpp Require Import gmap strings list fin_maps pretty.
From Stdlib Require Import ZArith Ascii String.

Set Warnings "-register-all".
Open Scope string_scope.
Open Scope Z_scope.
Open Scope list_scope.

(** ** Python values *)

Inductive pyval :=
| PNone
| PBool (b : bool)
| PInt (z : Z)
| PStr (s : string)
| PBytes (s : string)
| PList (l : list pyval)
| PDict (d : gmap string pyval)
| PObj (attrs : gmap string pyval).

Abbreviation dict := (gmap string pyval).

(** Truth value of an object in a condition ([if x:], [x or y]). *)
Definition truthy (v : pyval) : bool :=
  match v with
  | PNone => false
  | PBool b => b
  | PInt z => negb (z =? 0)
  | PStr s => negb (String.eqb s "")
  | PBytes s => negb (String.eqb s "")
  | PList l => match l with [] => false | _ => true end
  | PDict d => negb (Nat.eqb (size d) 0)
  | PObj _ => true
  end.

(** [v is None] *)
Definition is_None (v : pyval) : bool :=
  match v with PNone => true | _ => false end.

(** [v == s] for a string literal [s] *)
Definition eq_str (v : pyval) (s : string) : bool :=
  match v with PStr s' => String.eqb s' s | _ => false end.

(** An object usable as an integer in an order comparison with an [int]. *)
Definition as_int (v : pyval) : option Z :=
  match v with
  | PInt z => Some z
  | PBool b => Some (Z.b2z b)
  | _ => None
  end.

(** [str(v)] / ["{}".format(v)] on the values that reach a format call *)
Definition py_str (v : pyval) : string :=
  match v with
  | PNone => "None"
  | PBool true => "True"
  | PBool false => "False"
  | PInt z => pretty z
  | PStr s => s
  | _ => ""
  end.

(** [sub in s] on strings: [sub] occurs in [s] *)
Fixpoint substring_of (sub s : string) : bool :=
  String.prefix sub s ||
  match s with
  | EmptyString => false
  | String _ s' => substring_of sub s'
  end.

(** ** Exceptions

    The class of an exception is recorded as the first [except] clause of
    [OnlineProcessor.search] it is an instance of; the built-in errors the
    processor itself can raise and every other subclass of [Exception] fall
    through to the last clause. *)

Inductive exn_class :=
| SSLError
| TimeoutException
| AsyncioTimeoutError
| HTTPError
| StreamError
| SearxEngineCaptchaException
| SearxEngineTooManyRequestsException
| SearxEngineAccessDeniedException
| KeyError
| TypeError
| IndexError
| ValueError
| ReError
| OtherException (name : string).

Record exn := mkExn { exn_cls : exn_class; exn_msg : string }.

(** ** HTTP responses *)

Inductive Response := mkResponse {
  status_code : Z;
  reason_phrase : string;
  url_host : string;
  history : list Response;
  text : string;
  search_params : option dict
}.

(** ** Observable effects of a search invocation *)

Inductive event :=
| EvInitNetwork (engine_name : string)
| EvRequest (query : string) (params : dict)
| EvSend (is_post : bool) (url : pyval) (request_args : dict)
| EvResponse (resp : Response)
| EvCountError (engine_name message : string)
               (context : string * string * string) (secondary : bool)
| EvHandleException (e : exn) (suspend : bool)
| EvExtendContainer (results : option (list pyval)).

(** ** Settings ([settings['search']]) *)

Record Site := mkSite {
  website_url_expression : string;
  website_search_terms : list string
}.

Record Settings := mkSettings {
  force_sitelinks_categories : list string;
  force_sitelink_websites : list Site
}.

(** ** Locale of a search query *)

Record Locale := mkLocale {
  language : string;
  territory : option string
}.

Record SearchQuery := mkSearchQuery {
  locale : option Locale
}.

(** ** The effect monad: world state, emitted events, exception or value *)

Module Eff.
Section Eff.
Context {W : Type}.

Definition M (A : Type) : Type := W -> W * list event * (exn + A).

Definition ret {A} (a : A) : M A := fun w => (w, [], inr a).

Definition raise {A} (e : exn) : M A := fun w => (w, [], inl e).

Definition bind {A B} (m : M A) (f : A -> M B) : M B :=
  fun w =>
    match m w with
    | (w1, t1, inl e) => (w1, t1, inl e)
    | (w1, t1, inr a) =>
        match f a w1 with
        | (w2, t2, r) => (w2, t1 ++ t2, r)
        end
    end.

Definition emit (ev : event) : M unit := fun w => (w, [ev], inr tt).

(** a call into a collaborator, which may change the world and may raise *)
Definition call {A} (f : W -> W * (exn + A)) : M A :=
  fun w => match f w with (w', r) => (w', [], r) end.

(** a pure step that may raise *)
Definition lift {A} (r : exn + A) : M A := fun w => (w, [], r).

(** [try: m except Exception as e: h e] *)
Definition try_except {A} (m : M A) (h : exn -> M A) : M A :=
  fun w =>
    match m w with
    | (w1, t1, inl e) =>
        match h e w1 with
        | (w2, t2, r) => (w2, t1 ++ t2, r)
        end
    | (w1, t1, inr a) => (w1, t1, inr a)
    end.

Definition events {A} (x : W * list event * (exn + A)) : list event := x.1.2.
Definition outcome {A} (x : W * list event * (exn + A)) : exn + A := x.2.
End Eff.
End Eff.
Import Eff.

#[global] Instance M_ret {W} : MRet (@M W) := @ret W.
#[global] Instance M_bind {W} : MBind (@M W) := fun A B f m => bind m f.

(** the same for pure steps that may raise *)
#[global] Instance err_ret : MRet (sum exn) := fun A a => inr a.
#[global] Instance err_bind : MBind (sum exn) :=
  fun A B f r => match r with inl e => inl e | inr a => f a end.

#[global] Instance err_fmap : FMap (sum exn) :=
  fun A B f r => match r with inl e => inl e | inr a => inr (f a) end.

(** [d[k]] *)
Definition getitem (d : dict) (k : string) : exn + pyval :=
  match d !! k with
  | Some v => inr v
  | None => inl (mkExn KeyError k)
  end.

(** [d.get(k, default)] *)
Definition dict_get (d : dict) (k : string) (dflt : pyval) : pyval :=
  default dflt (d !! k).

(** [d[k] = v] on an object that may or may not support item assignment *)
Definition setitem (obj : pyval) (k : string) (v : pyval) : exn + pyval :=
  match obj with
  | PDict d => inr (PDict (<[k := v]> d))
  | _ => inl (mkExn TypeError "object does not support item assignment")
  end.

(** [term in v] for a string [term] *)
Definition contains (term : string) (v : pyval) : exn + bool :=
  match v with
  | PStr q => inr (substring_of term q)
  | PList l => inr (existsb (fun x => eq_str x term) l)
  | PDict d => inr (bool_decide (is_Some (d !! term)))
  | _ => inl (mkExn TypeError "argument is not iterable")
  end.

(** [v + s] for a string [s] *)
Definition str_concat (v : pyval) (s : string) : exn + string :=
  match v with
  | PStr q => inr (q +:+ s)
  | _ => inl (mkExn TypeError "unsupported operand type(s) for +")
  end.

(** [l[0]] *)
Definition first_item {A} (l : list A) : exn + A :=
  match l with
  | x :: _ => inr x
  | [] => inl (mkExn IndexError "list index out of range")
  end.

(** * The [online] processor *)

Module Online.

(** [default_request_params()] *)
Definition default_request_params : dict :=
  <["method" := PStr "GET"]> (
  <["headers" := PDict ∅]> (
  <["data" := PDict ∅]> (
  <["json" := PDict ∅]> (
  <["content" := PBytes ""]> (
  <["url" := PStr ""]> (
  <["cookies" := PDict ∅]> (
  <["allow_redirects" := PBool false]> (
  <["max_redirects" := PInt 0]> (
  <["soft_max_redirects" := PInt 0]> (
  <["auth" := PNone]> (
  <["verify" := PNone]> (
  <["raise_for_httperror" := PBool true]> ∅)))))))))))).

(** The Accept-Language value of [get_params] for a locale. *)
Definition accept_language (loc : Locale) : string :=
  let ac_lang := language loc in
  match territory loc with
  | Some terr =>
      if truthy (PStr terr)
      then language loc +:+ "-" +:+ terr +:+ "," +:+ language loc +:+ ";q=0.9,*;q=0.5"
      else ac_lang
  | None => ac_lang
  end.

(** [OnlineProcessor.get_params].  [base_params] is what
    [super().get_params(search_query, engine_category)] returned and
    [useragent] what [gen_useragent()] returned; both functions live outside
    this module.  [send_accept_language_header] is the engine's flag. *)
Definition get_params (send_accept_language_header : bool)
    (base_params : option dict) (useragent : string)
    (search_query : SearchQuery) : exn + option dict :=
  match base_params with
  | None => inr None
  | Some base_params =>
      let params : dict := base_params ∪ default_request_params in
      headers ← getitem params "headers";
      match headers with
      | PDict h =>
          let h := <["User-Agent" := PStr useragent]> h in
          let h :=
            match (if send_accept_language_header
                   then locale search_query else None) with
            | Some loc => <["Accept-Language" := PStr (accept_language loc)]> h
            | None => h
            end in
          inr (Some (<["headers" := PDict h]> params))
      | _ => inl (mkExn TypeError "object does not support item assignment")
      end
  end.

(** Lines 167-203 of [_send_http_request]: the keyword arguments handed to
    the transport and whether [searx.network.post] is used. *)
Definition request_args_of (params : dict) : exn + (bool * dict) :=
  headers ← getitem params "headers";
  cookies ← getitem params "cookies";
  auth ← getitem params "auth";
  let request_args : dict :=
    <["auth" := auth]> (<["cookies" := cookies]> (<["headers" := headers]> ∅)) in
  let verify := dict_get params "verify" PNone in
  let request_args : dict :=
    if is_None verify then request_args
    else <["verify" := verify]> request_args in
  let max_redirects := dict_get params "max_redirects" PNone in
  let request_args : dict :=
    if truthy max_redirects
    then <["max_redirects" := max_redirects]> request_args
    else request_args in
  let request_args : dict :=
    match params !! "allow_redirects" with
    | Some v => <["allow_redirects" := v]> request_args
    | None => request_args
    end in
  let request_args : dict :=
    <["raise_for_httperror" :=
        dict_get params "raise_for_httperror" (PBool true)]> request_args in
  method ← getitem params "method";
  if eq_str method "GET" then inr (false, request_args)
  else
    data ← getitem params "data";
    let request_args : dict :=
      if truthy data then <["data" := data]> request_args else request_args in
    json ← getitem params "json";
    let request_args : dict :=
      if truthy json then <["json" := json]> request_args else request_args in
    content ← getitem params "content";
    let request_args : dict :=
      if truthy content then <["content" := content]> request_args
      else request_args in
    inr (true, request_args).

(** [params.get("soft_max_redirects", max_redirects or 0)] *)
Definition soft_max_redirects_of (params : dict) : pyval :=
  let max_redirects := dict_get params "max_redirects" PNone in
  dict_get params "soft_max_redirects"
    (if truthy max_redirects then max_redirects else PInt 0).

(** [str(response.status_code or "")] *)
Definition status_code_str (resp : Response) : string :=
  if status_code resp =? 0 then "" else pretty (status_code resp).

Definition redirect_message (n : nat) (soft_max_redirects : pyval) : string :=
  pretty n +:+ " redirects, maximum: " +:+ py_str soft_max_redirects.

(** [_get_property] *)
Definition _get_property (thing : pyval) (key : string) (dflt : pyval) : pyval :=
  match thing with
  | PNone => dflt
  | PDict d => dict_get d key dflt
  | PObj attrs => default dflt (attrs !! key)
  | _ => dflt
  end.

(** the filter of [_get_sitelinks]: [_get_property(result, "url") is not None] *)
Definition has_url (result : pyval) : bool :=
  negb (is_None (_get_property result "url" PNone)).

Section Processor.
Context {W : Type}.

(** The engine module behind [self.engine]: [request] rewrites the
    parameter dictionary (in place in the source, hence the dictionary it
    returns here), [response] parses a response into results. *)
Record Engine := mkEngine {
  name : string;
  request : string -> dict -> W -> W * (exn + dict);
  response : Response -> W -> W * (exn + list pyval)
}.

(** [searx.network.get] and [searx.network.post] *)
Record Network := mkNetwork {
  get : pyval -> dict -> W -> W * (exn + Response);
  post : pyval -> dict -> W -> W * (exn + Response)
}.

Variable engine : Engine.
Variable network : Network.
(** [re.match(pattern, string)] on strings: whether a match object is
    returned, or [re.error] for a pattern that does not compile *)
Variable re_match : string -> string -> exn + bool.
Variable settings : Settings.

(** [count_error(engine_name, message, context, secondary=...)] *)
Definition count_error (engine_name message : string)
    (context : string * string * string) (secondary : bool) : M (W:=W) unit :=
  emit (EvCountError engine_name message context secondary).

Definition _send_http_request (params : dict) : M (W:=W) Response :=
  '(is_post, request_args) ← lift (request_args_of params);
  let soft_max_redirects := soft_max_redirects_of params in
  url ← lift (getitem params "url");
  emit (EvSend is_post url request_args);;
  resp ← call ((if is_post : bool then post network else get network)
                 url request_args);
  match as_int soft_max_redirects with
  | None => raise (mkExn TypeError "'>' not supported")
  | Some soft =>
      if soft <? Z.of_nat (List.length (history resp)) then
        count_error (name engine)
          (redirect_message (List.length (history resp)) soft_max_redirects)
          (status_code_str resp, reason_phrase resp, url_host resp)
          true;;
        mret resp
      else mret resp
  end.

(** [_search_basic]; the dictionary it returns is [params] as the engine
    left it. *)
Definition _search_basic (query : string) (params : dict)
    : M (W:=W) (dict * option (list pyval)) :=
  emit (EvRequest query params);;
  params ← call (request engine query params);
  url ← lift (getitem params "url");
  if negb (truthy url) then mret (params, None)
  else
    resp ← _send_http_request params;
    let resp :=
      mkResponse (status_code resp) (reason_phrase resp) (url_host resp)
                 (history resp) (text resp) (Some params) in
    emit (EvResponse resp);;
    results ← call (response engine resp);
    mret (params, Some results).

(** [_get_sitelinks] *)
Definition _get_sitelinks (params : dict) (search_term : string)
    : M (W:=W) (list pyval) :=
  let sitelink_params : dict := params in
  q ← lift (getitem sitelink_params "query");
  sitelink_query ← lift (str_concat q (" " +:+ search_term));
  let sitelink_params : dict := <["query" := PStr sitelink_query]> sitelink_params in
  let sitelink_params : dict := <["category" := PStr "sitelinks"]> sitelink_params in
  '(_, sitelink_results) ← _search_basic sitelink_query sitelink_params;
  match sitelink_results with
  | None => raise (mkExn TypeError "object of type 'NoneType' has no len()")
  | Some sitelink_results =>
      let sitelink_results :=
        if 0 <? Z.of_nat (List.length sitelink_results)
        then delete 0%nat sitelink_results
        else sitelink_results in
      mret (List.filter has_url sitelink_results)
  end.

(** [any(term in params["query"] for term in site['website_search_terms'])] *)
Fixpoint any_term_in_query (terms : list string) (params : dict) : exn + bool :=
  match terms with
  | [] => inr false
  | term :: rest =>
      q ← getitem params "query";
      found ← contains term q;
      if found : bool then inr true else any_term_in_query rest params
  end.

(** [re.match(expression, url)] for whatever [_get_property] returned *)
Definition match_url (expression : string) (url : pyval) : exn + bool :=
  match url with
  | PStr u => re_match expression u
  | _ => inl (mkExn TypeError "expected string or bytes-like object")
  end.

(** the loop [for result in search_results] of [_add_forced_sitelinks],
    with the assignment to [result["sitelinks"]] as a list update *)
Fixpoint scan_results (params : dict) (site : Site) (expression : string)
    (search_results : list pyval) : M (W:=W) (list pyval) :=
  match search_results with
  | [] => mret []
  | result :: rest =>
      matched ← lift (match_url expression
                        (_get_property result "url" (PStr "")));
      if matched : bool then
        search_term ← lift (first_item (website_search_terms site));
        sitelinks ← _get_sitelinks params search_term;
        result ← lift (setitem result "sitelinks" (PList sitelinks));
        mret (result :: rest)
      else
        rest ← scan_results params site expression rest;
        mret (result :: rest)
  end.

(** the loop [for site in settings['search']['force_sitelink_websites']];
    [None] for [search_results] is Python's [None] *)
Fixpoint sites_loop (sites : list Site) (search_results : option (list pyval))
    (params : dict) : M (W:=W) (option (list pyval)) :=
  match sites with
  | [] => mret search_results
  | site :: sites =>
      category ← lift (getitem params "category");
      if negb (existsb (eq_str category) (force_sitelinks_categories settings))
      then sites_loop sites search_results params
      else
        skip ← lift (any_term_in_query (website_search_terms site) params);
        if skip : bool then sites_loop sites search_results params
        else
          let expression := "(" +:+ website_url_expression site +:+ ")" in
          match search_results with
          | None =>
              raise (mkExn TypeError "'NoneType' object is not iterable")
          | Some results =>
              results ← scan_results params site expression results;
              sites_loop sites (Some results) params
          end
  end.

Definition _add_forced_sitelinks (search_results : option (list pyval))
    (params : dict) : M (W:=W) (option (list pyval)) :=
  sites_loop (force_sitelink_websites settings) search_results params.

(** Modelled from the spec: [EngineProcessor.handle_exception] is defined
    in [abstract.py], which is not among the sources.  Following section
    4.4 it records one incident for the exception together with the
    suspend flag it is given; the flag is [False] when the caller passes
    none. *)
Definition handle_exception (e : exn) (suspend : bool) : M (W:=W) unit :=
  emit (EvHandleException e suspend).

(** Modelled from the spec: [EngineProcessor.extend_container] is defined
    in [abstract.py], which is not among the sources.  Following section
    4.6 it hands the results (or nothing, for [None]) to the result
    container. *)
Definition extend_container (search_results : option (list pyval))
    : M (W:=W) unit :=
  emit (EvExtendContainer search_results).

(** [init_network_in_thread]; the timing arguments are not modelled *)
Definition init_network_in_thread : M (W:=W) unit :=
  emit (EvInitNetwork (name engine)).

(** the body of the [try] statement of [search] *)
Definition search_try (query : string) (params : dict) : M (W:=W) unit :=
  '(params, search_results) ← _search_basic query params;
  search_results ←
    (if (0 <? Z.of_nat (List.length (force_sitelinks_categories settings)))
        && (0 <? Z.of_nat (List.length (force_sitelink_websites settings)))
     then _add_forced_sitelinks search_results params
     else mret search_results);
  extend_container search_results.

(** the [except] clauses of [search], in their order *)
Definition search_except (e : exn) : M (W:=W) unit :=
  match exn_cls e with
  | SSLError => handle_exception e true
  | TimeoutException | AsyncioTimeoutError => handle_exception e true
  | HTTPError | StreamError => handle_exception e true
  | SearxEngineCaptchaException
  | SearxEngineTooManyRequestsException
  | SearxEngineAccessDeniedException => handle_exception e true
  | _ => handle_exception e false
  end.

Definition search (query : string) (params : dict) : M (W:=W) unit :=
  init_network_in_thread;;
  try_except (search_try query params) search_except.

End Processor.

Arguments Engine : clear implicits.
Arguments Network : clear implicits.

End Online.

(** * The tracker URL remover plugin *)

Module TrackerUrlRemover.

(** ** Regular expressions, as far as the patterns of the plugin need them *)

Inductive regex :=
| Fail
| Eps
| Chr (c : ascii)
| NotIn (cs : list ascii)
| Dollar
| Cat (r1 r2 : regex)
| Alt (r1 r2 : regex)
| Star (r : regex).

Fixpoint lit (s : string) : regex :=
  match s with
  | EmptyString => Eps
  | String c s' => Cat (Chr c) (lit s')
  end.

Definition Plus (r : regex) : regex := Cat r (Star r).

(** [$] matches at the end of the string and just before a newline that
    ends the string *)
Definition at_end (s : string) : bool :=
  match s with
  | EmptyString => true
  | String c EmptyString => Ascii.eqb c "010"
  | _ => false
  end.

Fixpoint nullable (e : bool) (r : regex) : bool :=
  match r with
  | Fail => false
  | Eps => true
  | Chr _ => false
  | NotIn _ => false
  | Dollar => e
  | Cat r1 r2 => nullable e r1 && nullable e r2
  | Alt r1 r2 => nullable e r1 || nullable e r2
  | Star _ => true
  end.

Fixpoint deriv (e : bool) (c : ascii) (r : regex) : regex :=
  match r with
  | Fail | Eps | Dollar => Fail
  | Chr a => if Ascii.eqb a c then Eps else Fail
  | NotIn cs => if existsb (Ascii.eqb c) cs then Fail else Eps
  | Cat r1 r2 =>
      if nullable e r1
      then Alt (Cat (deriv e c r1) r2) (deriv e c r2)
      else Cat (deriv e c r1) r2
  | Alt r1 r2 => Alt (deriv e c r1) (deriv e c r2)
  | Star r1 => Cat (deriv e c r1) (Star r1)
  end.

(** [reg.match(s)]: some prefix of [s] matches *)
Fixpoint re_match (r : regex) (s : string) : bool :=
  nullable (at_end s) r ||
  match s with
  | EmptyString => false
  | String c s' => re_match (deriv (at_end s) c r) s'
  end.

(** the compiled patterns of [regexes], in the order of the source:
    - utm_[^&]+
    - (wkey|wemail)[^&]*
    - (_hsenc|_hsmi|hsCtaTracking|__hssc|__hstc|__hsfp)[^&]*
    - (tl)[^&]*
    - &$
    The source holds them in a set; only whether some pattern matches is
    ever used. *)
Definition regexes : list regex :=
  [ Cat (lit "utm_") (Plus (NotIn ["&"%char]));
    Cat (Alt (lit "wkey") (lit "wemail")) (Star (NotIn ["&"%char]));
    Cat (Alt (lit "_hsenc") (Alt (lit "_hsmi") (Alt (lit "hsCtaTracking")
          (Alt (lit "__hssc") (Alt (lit "__hstc") (lit "__hsfp"))))))
        (Star (NotIn ["&"%char]));
    Cat (lit "tl") (Star (NotIn ["&"%char]));
    Cat (Chr "&") Dollar ].

(** [for reg in regexes: if reg.match(param_name): ...; break]: whether the
    body runs *)
Definition matches_tracker (param_name : string) : bool :=
  existsb (fun reg => re_match reg param_name) regexes.


(** ** [urllib.parse], on strings held as their UTF-8 bytes

    Modelled after CPython's [urllib/parse.py] with the default arguments
    the plugin uses.  Undecodable byte sequences, which [unquote] would
    replace, are outside the model. *)

Definition hex_value (c : ascii) : option nat :=
  let n := nat_of_ascii c in
  if (48 <=? n)%nat && (n <=? 57)%nat then Some (n - 48)%nat
  else if (65 <=? n)%nat && (n <=? 70)%nat then Some (n - 55)%nat
  else if (97 <=? n)%nat && (n <=? 102)%nat then Some (n - 87)%nat
  else None.

Definition hex_digit (n : nat) : ascii :=
  ascii_of_nat (if (n <? 10)%nat then 48 + n else 55 + n).

(** [unquote]: [%XX] becomes the byte [XX] *)
Fixpoint unquote (s : string) : string :=
  match s with
  | EmptyString => EmptyString
  | String c s1 =>
      if Ascii.eqb c "%" then
        match s1 with
        | String a (String b rest) =>
            match hex_value a, hex_value b with
            | Some x, Some y => String (ascii_of_nat (16 * x + y)) (unquote rest)
            | _, _ => String c (unquote s1)
            end
        | _ => String c (unquote s1)
        end
      else String c (unquote s1)
  end.

(** the characters [quote_plus] never quotes: letters, digits and [_.-~] *)
Definition always_safe (c : ascii) : bool :=
  let n := nat_of_ascii c in
  ((48 <=? n) && (n <=? 57) || (65 <=? n) && (n <=? 90)
   || (97 <=? n) && (n <=? 122))%nat
  || existsb (Ascii.eqb c) ["_"; "."; "-"; "~"]%char.

Fixpoint quote_plus (s : string) : string :=
  match s with
  | EmptyString => EmptyString
  | String c s' =>
      if always_safe c then String c (quote_plus s')
      else if Ascii.eqb c " " then String "+" (quote_plus s')
      else
        let n := nat_of_ascii c in
        String "%" (String (hex_digit (n / 16)) (String (hex_digit (n mod 16))
          (quote_plus s')))
  end.

(** [s.replace('+', ' ')] *)
Fixpoint plus_to_space (s : string) : string :=
  match s with
  | EmptyString => EmptyString
  | String c s' => String (if Ascii.eqb c "+" then " "%char else c) (plus_to_space s')
  end.

(** [s.split(sep)] for a one-character separator *)
Fixpoint split (sep : ascii) (s : string) : list string :=
  match s with
  | EmptyString => [EmptyString]
  | String c s' =>
      if Ascii.eqb c sep then EmptyString :: split sep s'
      else
        match split sep s' with
        | w :: ws => String c w :: ws
        | [] => [String c EmptyString]
        end
  end.

(** [s.split('=', 1)]: [None] when there is no [=] *)
Fixpoint split_eq (s : string) : option (string * string) :=
  match s with
  | EmptyString => None
  | String c s' =>
      if Ascii.eqb c "=" then Some (EmptyString, s')
      else
        match split_eq s' with
        | Some (n, v) => Some (String c n, v)
        | None => None
        end
  end.

(** [parse_qsl(qs)] with [keep_blank_values=False], [strict_parsing=False] *)
Definition parse_field (name_value : string) : list (string * string) :=
  match split_eq name_value with
  | Some (n, v) =>
      if String.eqb v "" then []
      else [(unquote (plus_to_space n), unquote (plus_to_space v))]
  | None => []
  end.

Definition parse_qsl (qs : string) : list (string * string) :=
  List.concat (map parse_field (split "&" qs)).

(** [urlencode(query)] for a list of string pairs *)
Definition urlencode (query : list (string * string)) : string :=
  String.concat "&" (map (fun kv => quote_plus kv.1 +:+ "=" +:+ quote_plus kv.2) query).

Record ParseResult := mkParseResult {
  scheme : string;
  netloc : string;
  path : string;
  params : string;
  query : string;
  fragment : string
}.

(** [parsed._replace(query=q)] *)
Definition replace_query (p : ParseResult) (q : string) : ParseResult :=
  mkParseResult (scheme p) (netloc p) (path p) (params p) q (fragment p).

Definition uses_netloc : list string :=
  [""; "ftp"; "http"; "gopher"; "nntp"; "telnet"; "imap"; "wais"; "file";
   "mms"; "https"; "shttp"; "snews"; "prospero"; "rtsp"; "rtspu"; "rsync";
   "svn"; "svn+ssh"; "sftp"; "nfs"; "git"; "git+ssh"; "ws"; "wss"].

Definition nonempty (s : string) : bool := negb (String.eqb s "").

(** [urlunparse(components)] *)
Definition urlunparse (p : ParseResult) : string :=
  let url := path p in
  let url := if nonempty (params p) then url +:+ ";" +:+ params p else url in
  let url :=
    if nonempty (netloc p)
       || (nonempty (scheme p)
           && existsb (String.eqb (scheme p)) uses_netloc
           && negb (String.eqb (String.substring 0 2 url) "//"))
    then
      let url :=
        if nonempty url && negb (String.eqb (String.substring 0 1 url) "/")
        then "/" +:+ url else url in
      "//" +:+ netloc p +:+ url
    else url in
  let url := if nonempty (scheme p) then scheme p +:+ ":" +:+ url else url in
  let url := if nonempty (query p) then url +:+ "?" +:+ query p else url in
  if nonempty (fragment p) then url +:+ "#" +:+ fragment p else url.

(** a result: the fields the plugin reads and writes *)
Inductive Result := mkResult {
  url : option string;
  parsed_url : option ParseResult;
  sitelinks : option (list Result)
}.

(** [l.remove(x)]: the first element equal to [x] is removed; [None] stands
    for the [ValueError] raised when there is none *)
Fixpoint list_remove (x : string * string) (l : list (string * string))
    : option (list (string * string)) :=
  match l with
  | [] => None
  | y :: l' =>
      if decide (y = x) then Some l' else cons y <$> list_remove x l'
  end.

(** the loop [for name_value in list(parsed_query)] of [_clear_trackers];
    [snapshot] is the copy that is iterated, [parsed_query] the list that is
    modified, [pu] and [u] are [result.parsed_url] and [result.url].  The
    inner loop over [regexes] stops at the first pattern that matches, and
    its effect does not depend on which one that is.  The [print] calls are
    left out. *)
Fixpoint clear_loop (snapshot parsed_query : list (string * string))
    (pu : ParseResult) (u : option string)
    : exn + (list (string * string) * ParseResult * option string) :=
  match snapshot with
  | [] => inr (parsed_query, pu, u)
  | name_value :: rest =>
      let param_name := name_value.1 in
      if matches_tracker param_name then
        match list_remove name_value parsed_query with
        | None => inl (mkExn ValueError "list.remove(x): x not in list")
        | Some parsed_query =>
            let pu := replace_query pu (urlencode parsed_query) in
            clear_loop rest parsed_query pu (Some (urlunparse pu))
        end
      else clear_loop rest parsed_query pu u
  end.

(** [_clear_trackers(result)], returning the result as it is afterwards *)
Definition _clear_trackers (result : Result) : exn + Result :=
  match parsed_url result with
  | None => inr result
  | Some pu =>
      let parsed_query := parse_qsl (query pu) in
      match clear_loop parsed_query parsed_query pu (url result) with
      | inl e => inl e
      | inr (_, pu, u) => inr (mkResult u (Some pu) (sitelinks result))
      end
  end.

(** [for sitelink in result.sitelinks: _clear_trackers(sitelink)] *)
Fixpoint clear_all (links : list Result) : exn + list Result :=
  match links with
  | [] => inr []
  | sitelink :: rest =>
      sitelink ← _clear_trackers sitelink;
      rest ← clear_all rest;
      inr (sitelink :: rest)
  end.

(** [SXNGPlugin.on_result]: the result as it is afterwards and the returned
    flag *)
Definition on_result (result : Result) : exn + (Result * bool) :=
  links ←
    match sitelinks result with
    | Some (sitelink :: rest) => Some <$> clear_all (sitelink :: rest)
    | other => inr other
    end;
  result ← _clear_trackers (mkResult (url result) (parsed_url result) links);
  inr (result, true).

End TrackerUrlRemover.

(** * Vocabulary of the statements *)

(** The failure taxonomy of section 4.4: TLS, timeout, transport or
    protocol, captcha, rate limit, access denied. *)
Definition classified (c : exn_class) : bool :=
  match c with
  | SSLError
  | TimeoutException | AsyncioTimeoutError
  | HTTPError | StreamError
  | SearxEngineCaptchaException
  | SearxEngineTooManyRequestsException
  | SearxEngineAccessDeniedException => true
  | _ => false
  end.

(** [params["headers"].get(k)] on built parameters *)
Definition header (params : dict) (k : string) : option pyval :=
  match params !! "headers" with
  | Some (PDict h) => h !! k
  | _ => None
  end.

(** the value under a body keyword: present exactly when it is non-empty *)
Definition attached (params : dict) (k : string) : option pyval :=
  match params !! k with
  | Some v => if truthy v then Some v else None
  | None => None
  end.

(** ** Events of interest and how many of them a run emits *)

Definition is_request (ev : event) : bool :=
  match ev with EvRequest _ _ => true | _ => false end.

Definition is_send (ev : event) : bool :=
  match ev with EvSend _ _ _ => true | _ => false end.

Definition is_count_error (ev : event) : bool :=
  match ev with EvCountError _ _ _ _ => true | _ => false end.

Definition is_handle_exception (ev : event) : bool :=
  match ev with EvHandleException _ _ => true | _ => false end.

Definition count (P : event -> bool) (evs : list event) : nat :=
  List.length (List.filter P evs).

Arguments count : simpl never.

(** every run of [m] emits at most [n] events that satisfy [P] *)
Definition emits_at_most {W A} (P : event -> bool) (n : nat)
    (m : M (W:=W) A) : Prop :=
  forall w, (count P (events (m w)) <= n)%nat.

(** a decoded query parameter that stays: its name matches no pattern *)
Definition kept (name_value : string * string) : bool :=
  negb (TrackerUrlRemover.matches_tracker name_value.1).

(** the parsed URL [_clear_trackers] leaves behind when it rewrites one *)
Definition cleaned (pu : TrackerUrlRemover.ParseResult)
    : TrackerUrlRemover.ParseResult :=
  TrackerUrlRemover.replace_query pu
    (TrackerUrlRemover.urlencode
       (List.filter kept
          (TrackerUrlRemover.parse_qsl (TrackerUrlRemover.query pu)))).

(** * Concrete engines, transports and inputs

    Used to run the processor on explicit inputs.  The world is trivial. *)

Module Scenario.
Import Online.

Definition R0 : pyval := PDict {["url" := PStr "https://example.org/"]}.
Definition R1 : pyval := PDict {["url" := PNone]}.
Definition R2 : pyval := PDict {["url" := PStr "https://example.org/about"]}.

(** an engine that sets the URL from the query and parses every response
    into the three results above *)
Definition demo_engine : Engine unit :=
  mkEngine "demo"
    (fun query params w =>
       (w, inr (<["url" := PStr ("https://engine.example/search?q=" +:+ query)]>
                  params)))
    (fun resp w => (w, inr [R0; R1; R2])).

(** an engine whose [request] leaves the parameters, and so the empty URL,
    as they are *)
Definition silent_engine : Engine unit :=
  mkEngine "silent"
    (fun query params w => (w, inr params))
    (fun resp w => (w, inr [])).

Definition ok_response : Response :=
  mkResponse 200 "OK" "engine.example" [] "" None.

Definition moved_response : Response :=
  mkResponse 301 "Moved Permanently" "engine.example" [] "" None.

Definition redirected_response : Response :=
  mkResponse 200 "OK" "www.engine.example" [moved_response] "" None.

Definition demo_network : Network unit :=
  mkNetwork (fun url args w => (w, inr ok_response))
            (fun url args w => (w, inr ok_response)).

Definition redirecting_network : Network unit :=
  mkNetwork (fun url args w => (w, inr redirected_response))
            (fun url args w => (w, inr redirected_response)).

Definition tls_error : exn := mkExn SSLError "CERTIFICATE_VERIFY_FAILED".

Definition tls_failing_network : Network unit :=
  mkNetwork (fun url args w => (w, inl tls_error))
            (fun url args w => (w, inl tls_error)).

Definition value_error : exn := mkExn (OtherException "ValueError") "bad value".

(** an engine whose response parser raises a [ValueError] *)
Definition failing_parser_engine : Engine unit :=
  mkEngine "broken"
    (fun query params w =>
       (w, inr (<["url" := PStr "https://engine.example/"]> params)))
    (fun resp w => (w, inl value_error)).

(** [re.match] restricted to the one pattern used below, a group around
    dot-star, which matches at the start of every string *)
Definition re_match_dotstar (pattern s : string) : exn + bool :=
  if String.eqb pattern ("(" +:+ ".*" +:+ ")") then inr true
  else inl (mkExn ReError "pattern outside this table").

(** parameters of a query [test] in category [c] *)
Definition query_params (c : string) : dict :=
  <["category" := PStr c]> (<["query" := PStr "test"]> default_request_params).

Definition wiki_site : Site := mkSite ".*" ["wiki"].

(** POST parameters with a form body and a JSON body *)
Definition two_bodies : dict :=
  <["method" := PStr "POST"]> (
  <["url" := PStr "https://engine.example/api"]> (
  <["data" := PDict {["q" := PStr "test"]}]> (
  <["json" := PDict {["k" := PInt 1]}]> default_request_params))).

(** parameters from which the [auth] key was removed *)
Definition no_auth : dict :=
  delete "auth" (<["url" := PStr "https://engine.example/"]> default_request_params).

Definition with_url : dict :=
  <["url" := PStr "https://engine.example/"]> default_request_params.

(** the keyword arguments built for [with_url] *)
Definition with_url_args : dict :=
  <["raise_for_httperror" := PBool true]> (
  <["allow_redirects" := PBool false]> (
  <["auth" := PNone]> (
  <["cookies" := PDict ∅]> (
  <["headers" := PDict ∅]> ∅)))).

(** the keyword arguments built for [two_bodies] *)
Definition two_bodies_args : dict :=
  <["json" := PDict {["k" := PInt 1]}]> (
  <["data" := PDict {["q" := PStr "test"]}]> with_url_args).

(** the parameters of the nested search for [query_params c] and the term
    [wiki] *)
Definition nested_params (c : string) : dict :=
  <["category" := PStr "sitelinks"]> (
  <["query" := PStr "test wiki"]> (query_params c)).

(** what the demo engine makes of the parameters of the nested search *)
Definition nested_params_sent (c : string) : dict :=
  <["url" := PStr "https://engine.example/search?q=test wiki"]> (nested_params c).

(** the events of that nested search *)
Definition nested_events (c : string) : list event :=
  [EvRequest "test wiki" (nested_params c);
   EvSend false (PStr "https://engine.example/search?q=test wiki") with_url_args;
   EvResponse (mkResponse 200 "OK" "engine.example" [] ""
                 (Some (nested_params_sent c)))].

(** the parameters of a primary search in the reserved category, as the
    demo engine leaves them, and those of the nested search made from them *)
Definition primary_params_sent : dict :=
  <["url" := PStr "https://engine.example/search?q=test"]>
    (query_params "sitelinks").

Definition nested_of_primary : dict :=
  <["category" := PStr "sitelinks"]> (
  <["query" := PStr "test wiki"]> primary_params_sent).

(** base parameters of a query, as the parent class builds them *)
Definition base_params : dict :=
  <["query" := PStr "test"]> (<["category" := PStr "general"]> ∅).

Definition en_US : SearchQuery := mkSearchQuery (Some (mkLocale "en" (Some "US"))).
Definition en : SearchQuery := mkSearchQuery (Some (mkLocale "en" None)).

(** a result for a URL of [example.com] with the query [q] *)
Definition listing (q : string) : TrackerUrlRemover.Result :=
  TrackerUrlRemover.mkResult
    (Some ("https://example.com/list?" +:+ q))
    (Some (TrackerUrlRemover.mkParseResult
             "https" "example.com" "/list" "" q ""))
    None.

End Scenario.

(** * Further vocabulary

    Used by the statements on the rest of the two modules. *)

(** the result [_clear_trackers] leaves behind *)
Definition cleaned_result (result : TrackerUrlRemover.Result)
    : TrackerUrlRemover.Result :=
  match TrackerUrlRemover.parsed_url result with
  | None => result
  | Some pu =>
      if forallb kept (TrackerUrlRemover.parse_qsl (TrackerUrlRemover.query pu))
      then result
      else TrackerUrlRemover.mkResult
             (Some (TrackerUrlRemover.urlunparse (cleaned pu)))
             (Some (cleaned pu))
             (TrackerUrlRemover.sitelinks result)
  end.

(** the literal prefixes of the patterns that end in [[^&]*] *)
Definition tracker_prefixes : list string :=
  ["wkey"; "wemail"; "_hsenc"; "_hsmi"; "hsCtaTracking"; "__hssc"; "__hstc";
   "__hsfp"; "tl"].

(** the encoding of one character by [quote_plus] *)
Definition quote_char (c : ascii) : string :=
  TrackerUrlRemover.quote_plus (String c EmptyString).

(** the character [x] does not occur in [s] *)
Fixpoint lacks (x : ascii) (s : string) : bool :=
  match s with
  | EmptyString => true
  | String c s' => negb (Ascii.eqb c x) && lacks x s'
  end.
(** a pattern that matches nothing: it can only fail on its first
    character *)
Fixpoint dead (r : TrackerUrlRemover.regex) : bool :=
  match r with
  | TrackerUrlRemover.Fail => true
  | TrackerUrlRemover.Cat r1 _ => dead r1
  | TrackerUrlRemover.Alt r1 r2 => dead r1 && dead r2
  | _ => false
  end.

(** the first characters of the names the patterns can match *)
Definition tracker_initials : list ascii := ["u"; "w"; "_"; "h"; "t"; "&"]%char.


Definition is_extend_container (ev : event) : bool :=
  match ev with EvExtendContainer _ => true | _ => false end.

Definition is_response (ev : event) : bool :=
  match ev with EvResponse _ => true | _ => false end.

(** the keywords [_send_http_request] can pass to the transport *)
Definition request_arg_names : list string :=
  ["headers"; "cookies"; "auth"; "verify"; "max_redirects"; "allow_redirects";
   "raise_for_httperror"; "data"; "json"; "content"].

(** the keys [_send_http_request] reads with [params[...]] on every path *)
Definition required_keys : list string :=
  ["headers"; "cookies"; "auth"; "method"; "url"].

(** [r'] is [r] up to its [sitelinks] entry *)
Definition same_but_sitelinks (r r' : pyval) : Prop :=
  forall key dflt,
    key <> "sitelinks" ->
    Online._get_property r' key dflt = Online._get_property r key dflt.

(** * Further concrete inputs *)

Module Cases.
Import Online Scenario.

(** what [get_params] builds from [base_params] for a user agent, with and
    without an Accept-Language value *)
Definition built (accept : option string) : dict :=
  <["headers" :=
      PDict (match accept with
             | Some v => <["Accept-Language" := PStr v]>
                           {["User-Agent" := PStr "Mozilla/5.0"]}
             | None => {["User-Agent" := PStr "Mozilla/5.0"]}
             end)]>
    (base_params ∪ default_request_params).

(** the parameters of the query [test] as the demo engine leaves them *)
Definition general_sent : dict :=
  <["url" := PStr "https://engine.example/search?q=test"]>
    (query_params "general").

(** the events of the basic search of the demo engine for [test] *)
Definition general_events : list event :=
  [EvRequest "test" (query_params "general");
   EvSend false (PStr "https://engine.example/search?q=test") with_url_args;
   EvResponse (mkResponse 200 "OK" "engine.example" [] "" (Some general_sent))].

(** the events up to the failing transport call *)
Definition failed_events : list event :=
  [EvRequest "test" (query_params "general");
   EvSend false (PStr "https://engine.example/search?q=test") with_url_args].

(** parameters whose query already holds the search term of [wiki_site] *)
Definition wiki_query_params : dict :=
  <["query" := PStr "test wiki"]> (query_params "general").

(** a site whose expression matches the URLs of one shop only *)
Definition shop_site : Site := mkSite "https://shop\.example/.*" ["size"].

(** [re.match] restricted to the grouped expression of [shop_site]: it
    matches the strings that start with the address of the shop *)
Definition re_match_shop (pattern s : string) : exn + bool :=
  if String.eqb pattern ("(" +:+ website_url_expression shop_site +:+ ")")
  then inr (String.prefix "https://shop.example/" s)
  else inl (mkExn ReError "pattern outside this table").

(** the result [R0] with the sitelinks of the demo engine attached *)
Definition R0_enriched : pyval :=
  PDict (<["sitelinks" := PList [R2]]> {["url" := PStr "https://example.org/"]}).

End Cases.

(** * Lemmas on runs and on event counts *)

Lemma count_app P (a b : list event) :
  count P (a ++ b) = (count P a + count P b)%nat.
Proof. unfold count. by rewrite List.filter_app, length_app. Qed.

(** ** Running a sequence of steps *)

Section Run.
Context {W : Type}.

Lemma run_bind {A B} (m : M (W:=W) A) (f : A -> M B) w :
  (m ≫= f) w =
  match m w with
  | (w1, t1, inl e) => (w1, t1, inl e)
  | (w1, t1, inr a) =>
      match f a w1 with (w2, t2, r) => (w2, t1 ++ t2, r) end
  end.
Proof. reflexivity. Qed.

Lemma run_lift_inr {A B} (a : A) (f : A -> M (W:=W) B) w :
  (lift (inr a) ≫= f) w = f a w.
Proof. rewrite run_bind. cbn. by destruct (f a w) as [[w2 t2] r]. Qed.

Lemma run_lift_inl {A B} e (f : A -> M (W:=W) B) w :
  (lift (inl e) ≫= f) w = (w, [], inl e).
Proof. reflexivity. Qed.

Lemma run_emit {B} ev (f : unit -> M (W:=W) B) w :
  (emit ev ≫= f) w =
  match f tt w with (w2, t2, r) => (w2, ev :: t2, r) end.
Proof. reflexivity. Qed.
End Run.

Section Bounds.
Context {W : Type}.
Variable P : event -> bool.

Lemma eam_ret {A} n (a : A) : emits_at_most (W:=W) P n (mret a).
Proof. intros w. unfold count. cbn. lia. Qed.

Lemma eam_raise {A} n e : emits_at_most (W:=W) (A:=A) P n (raise e).
Proof. intros w. unfold count. cbn. lia. Qed.

Lemma eam_lift {A} n (r : exn + A) : emits_at_most (W:=W) P n (lift r).
Proof. intros w. unfold count. cbn. lia. Qed.

Lemma eam_call {A} n (f : W -> W * (exn + A)) :
  emits_at_most P n (call f).
Proof. intros w. unfold call, count. destruct (f w). cbn. lia. Qed.

Lemma eam_emit n ev :
  ((if P ev then 1 else 0) <= n)%nat -> emits_at_most (W:=W) P n (emit ev).
Proof. intros H w. unfold count. cbn. destruct (P ev); cbn in *; lia. Qed.

Lemma eam_bind {A B} n k t (m : M (W:=W) A) (f : A -> M (W:=W) B) :
  emits_at_most P n m ->
  (forall a, emits_at_most P k (f a)) ->
  (n + k <= t)%nat ->
  emits_at_most P t (m ≫= f).
Proof.
  intros Hm Hf Hle w. unfold mbind, M_bind, bind.
  specialize (Hm w). destruct (m w) as [[w1 t1] [e|a]]; cbn in *; [lia|].
  specialize (Hf a w1). destruct (f a w1) as [[w2 t2] r]; cbn in *.
  rewrite count_app. lia.
Qed.

Lemma eam_try_except {A} n k t (m : M (W:=W) A) (h : exn -> M (W:=W) A) :
  emits_at_most P n m ->
  (forall e, emits_at_most P k (h e)) ->
  (n + k <= t)%nat ->
  emits_at_most P t (try_except m h).
Proof.
  intros Hm Hh Hle w. unfold try_except.
  specialize (Hm w). destruct (m w) as [[w1 t1] [e|a]]; cbn in *; [|lia].
  specialize (Hh e w1). destruct (h e w1) as [[w2 t2] r]; cbn in *.
  rewrite count_app. lia.
Qed.

Lemma eam_weaken {A} n t (m : M (W:=W) A) :
  emits_at_most P n m -> (n <= t)%nat -> emits_at_most P t m.
Proof. intros Hm Hle w. specialize (Hm w). lia. Qed.
End Bounds.

Import Online.

Ltac eam_leaf :=
  first [ apply eam_ret | apply eam_raise | apply eam_lift | apply eam_call
        | apply eam_emit; cbn; lia ].

(** brute-force case analysis of a straight-line computation *)
Ltac run_cases :=
  intros w;
  unfold _send_http_request, count_error, handle_exception, extend_container,
    init_network_in_thread;
  unfold mbind, M_bind, bind, call, lift, emit, raise, mret, M_ret, ret, count;
  repeat case_match; simplify_eq; cbn; lia.

(** ** Lookups in keyword arguments built by conditional insertions *)

Lemma lookup_insert_when_eq (b : bool) (k : string) (v : pyval) (m : dict) :
  (if b then <[k:=v]> m else m) !! k = if b then Some v else m !! k.
Proof. destruct b; [apply lookup_insert_eq|done]. Qed.

Lemma lookup_insert_when_ne (b : bool) (k k' : string) (v : pyval) (m : dict) :
  k <> k' -> (if b then <[k:=v]> m else m) !! k' = m !! k'.
Proof. intros. destruct b; [by apply lookup_insert_ne|done]. Qed.

Lemma lookup_insert_opt_eq (o : option pyval) (k : string) (m : dict) :
  match o with Some v => <[k:=v]> m | None => m end !! k
  = match o with Some v => Some v | None => m !! k end.
Proof. destruct o; [apply lookup_insert_eq|done]. Qed.

Lemma lookup_insert_opt_ne (o : option pyval) (k k' : string) (m : dict) :
  k <> k' -> match o with Some v => <[k:=v]> m | None => m end !! k' = m !! k'.
Proof. intros. destruct o; [by apply lookup_insert_ne|done]. Qed.

Lemma lookup_insert_unless_eq (b : bool) (k : string) (v : pyval) (m : dict) :
  (if b then m else <[k:=v]> m) !! k = if b then m !! k else Some v.
Proof. destruct b; [done|apply lookup_insert_eq]. Qed.

Lemma lookup_insert_unless_ne (b : bool) (k k' : string) (v : pyval) (m : dict) :
  k <> k' -> (if b then m else <[k:=v]> m) !! k' = m !! k'.
Proof. intros. destruct b; [done|by apply lookup_insert_ne]. Qed.

Lemma dict_lookup_insert_eq (k : string) (v : pyval) (m : dict) :
  <[k:=v]> m !! k = Some v.
Proof. apply lookup_insert_eq. Qed.

Lemma dict_lookup_insert_ne (k k' : string) (v : pyval) (m : dict) :
  k <> k' -> <[k:=v]> m !! k' = m !! k'.
Proof. apply lookup_insert_ne. Qed.

Lemma dict_lookup_empty (k : string) : (∅ : dict) !! k = None.
Proof. apply lookup_empty. Qed.

Ltac lookup_keys :=
  repeat first
    [ rewrite dict_lookup_insert_eq
    | rewrite dict_lookup_insert_ne by discriminate
    | rewrite lookup_insert_when_eq
    | rewrite lookup_insert_when_ne by discriminate
    | rewrite lookup_insert_unless_eq
    | rewrite lookup_insert_unless_ne by discriminate
    | rewrite lookup_insert_opt_eq
    | rewrite lookup_insert_opt_ne by discriminate
    | rewrite dict_lookup_empty ].

(** * Properties of the [online] processor *)

Module OnlineFacts.
Import Online.

Section Processor.
Context {W : Type}.
Variable engine : Engine W.
Variable network : Network W.
Variable re_match : string -> string -> exn + bool.
Variable settings : Settings.

Local Abbreviation send := (_send_http_request engine network).
Local Abbreviation basic := (_search_basic engine network).
Local Abbreviation sitelinks := (_get_sitelinks engine network).

(** ** Bounds on engine calls, transport calls and incidents *)

Lemma send_http_request_requests params :
  emits_at_most is_request 0 (send params).
Proof. run_cases. Qed.

Lemma send_http_request_sends params :
  emits_at_most is_send 1 (send params).
Proof. run_cases. Qed.

Lemma send_http_request_handles params :
  emits_at_most is_handle_exception 0 (send params).
Proof. run_cases. Qed.

(** The rest is the same for every kind of event [P] that is neither a
    parse, nor a hand-over to the container, nor the network set-up: [r]
    bounds what one engine request adds, [s] what [_send_http_request]
    adds, [h] what one handled exception adds. *)
Section Kind.
Variable P : event -> bool.
Variables r s h : nat.
Hypothesis P_request :
  forall query params, ((if P (EvRequest query params) then 1 else 0) <= r)%nat.
Hypothesis P_send_http_request :
  forall params, emits_at_most P s (send params).
Hypothesis P_handle :
  forall e suspend,
    ((if P (EvHandleException e suspend) then 1 else 0) <= h)%nat.
Hypothesis P_response : forall resp, P (EvResponse resp) = false.
Hypothesis P_extend : forall results, P (EvExtendContainer results) = false.
Hypothesis P_init : forall engine_name, P (EvInitNetwork engine_name) = false.

Lemma search_basic_bound query params :
  emits_at_most P (r + s) (basic query params).
Proof.
  unfold _search_basic.
  apply (eam_bind _ r s); [apply eam_emit, P_request| |lia]. intros _.
  apply (eam_bind _ 0 s); [eam_leaf| |lia]. intros params'.
  apply (eam_bind _ 0 s); [eam_leaf| |lia]. intros url.
  destruct (negb _); [eam_leaf|].
  apply (eam_bind _ s 0); [apply P_send_http_request| |lia]. intros resp.
  apply (eam_bind _ 0 0); [|intros _|lia].
  - apply eam_emit. rewrite P_response. lia.
  - apply (eam_bind _ 0 0); [eam_leaf|intros; eam_leaf|lia].
Qed.

Lemma get_sitelinks_bound params search_term :
  emits_at_most P (r + s) (sitelinks params search_term).
Proof.
  unfold _get_sitelinks.
  apply (eam_bind _ 0 (r + s)); [eam_leaf| |lia]. intros q.
  apply (eam_bind _ 0 (r + s)); [eam_leaf| |lia]. intros sitelink_query.
  apply (eam_bind _ (r + s) 0); [apply search_basic_bound| |lia].
  intros [params' [results|]]; eam_leaf.
Qed.

(** the scan stops at the first result that matches *)
Lemma scan_results_bound params site expression search_results :
  emits_at_most P (r + s)
    (scan_results engine network re_match params site expression
       search_results).
Proof.
  induction search_results as [|result rest IH]; cbn [scan_results];
    [eam_leaf|].
  apply (eam_bind _ 0 (r + s)); [eam_leaf| |lia]. intros [|].
  - apply (eam_bind _ 0 (r + s)); [eam_leaf| |lia]. intros search_term.
    apply (eam_bind _ (r + s) 0); [apply get_sitelinks_bound| |lia].
    intros links.
    apply (eam_bind _ 0 0); [eam_leaf|intros; eam_leaf|lia].
  - apply (eam_bind _ (r + s) 0); [apply IH|intros; eam_leaf|lia].
Qed.

Lemma sites_loop_bound sites search_results params :
  emits_at_most P (List.length sites * (r + s))
    (sites_loop engine network re_match settings sites search_results
       params).
Proof.
  revert search_results.
  induction sites as [|site sites IH]; intros search_results;
    cbn [sites_loop]; [eam_leaf|].
  cbn [List.length Nat.mul].
  apply (eam_bind _ 0 (r + s + List.length sites * (r + s)));
    [eam_leaf| |lia].
  intros category.
  destruct (negb _); [eapply eam_weaken; [apply IH|lia]|].
  apply (eam_bind _ 0 (r + s + List.length sites * (r + s)));
    [eam_leaf| |lia].
  intros [|]; [eapply eam_weaken; [apply IH|lia]|].
  destruct search_results as [results|]; [|eam_leaf].
  apply (eam_bind _ (r + s) (List.length sites * (r + s)));
    [apply scan_results_bound|intros; apply IH|lia].
Qed.

Lemma add_forced_sitelinks_bound search_results params :
  emits_at_most P (List.length (force_sitelink_websites settings) * (r + s))
    (_add_forced_sitelinks engine network re_match settings
       search_results params).
Proof. apply sites_loop_bound. Qed.

Lemma search_try_bound query params :
  emits_at_most P
    (r + s + List.length (force_sitelink_websites settings) * (r + s))
    (search_try engine network re_match settings query params).
Proof.
  unfold search_try.
  apply (eam_bind _ (r + s)
           (List.length (force_sitelink_websites settings) * (r + s)));
    [apply search_basic_bound| |lia].
  intros [params' search_results].
  apply (eam_bind _ (List.length (force_sitelink_websites settings) * (r + s)) 0);
    [| |lia].
  - destruct (_ && _); [apply add_forced_sitelinks_bound|eam_leaf].
  - intros results. apply eam_emit. rewrite P_extend. lia.
Qed.

Lemma search_bound query params :
  emits_at_most P
    (r + s + List.length (force_sitelink_websites settings) * (r + s) + h)
    (search engine network re_match settings query params).
Proof.
  unfold search.
  apply (eam_bind _ 0
           (r + s + List.length (force_sitelink_websites settings) * (r + s)
            + h)); [| |lia].
  { apply eam_emit. rewrite P_init. lia. }
  intros _.
  apply (eam_try_except _
           (r + s + List.length (force_sitelink_websites settings) * (r + s))
           h); [apply search_try_bound| |lia].
  intros e. unfold search_except, handle_exception.
  destruct (exn_cls e); apply eam_emit, P_handle.
Qed.
End Kind.

Lemma search_basic_requests query params :
  emits_at_most is_request 1 (basic query params).
Proof.
  apply (search_basic_bound is_request 1 0); [cbn; lia| |done].
  apply send_http_request_requests.
Qed.

Lemma search_basic_sends query params :
  emits_at_most is_send 1 (basic query params).
Proof.
  apply (search_basic_bound is_send 0 1); [cbn; lia| |done].
  apply send_http_request_sends.
Qed.

Lemma scan_results_requests params site expression search_results :
  emits_at_most is_request 1
    (scan_results engine network re_match params site expression
       search_results).
Proof.
  apply (scan_results_bound is_request 1 0); [cbn; lia| |done].
  apply send_http_request_requests.
Qed.

Lemma add_forced_sitelinks_requests search_results params :
  emits_at_most is_request (List.length (force_sitelink_websites settings))
    (_add_forced_sitelinks engine network re_match settings
       search_results params).
Proof.
  eapply eam_weaken.
  - apply (add_forced_sitelinks_bound is_request 1 0); [cbn; lia| |done].
    apply send_http_request_requests.
  - lia.
Qed.

Lemma search_requests query params :
  emits_at_most is_request
    (1 + List.length (force_sitelink_websites settings))
    (search engine network re_match settings query params).
Proof.
  eapply eam_weaken.
  - apply (search_bound is_request 1 0 0); try done; try (cbn; lia).
    apply send_http_request_requests.
  - lia.
Qed.

Lemma search_try_handles query params :
  emits_at_most is_handle_exception 0
    (search_try engine network re_match settings query params).
Proof.
  eapply eam_weaken.
  - apply (search_try_bound is_handle_exception 0 0); try done;
      try (cbn; lia).
    apply send_http_request_handles.
  - lia.
Qed.

Lemma get_sitelinks_events params search_term w :
  events (sitelinks params search_term w) = []
  \/ exists q,
      params !! "query" = Some (PStr q)
      /\ events (sitelinks params search_term w)
         = events (basic (q +:+ " " +:+ search_term)
                     (<["category" := PStr "sitelinks"]>
                        (<["query" := PStr (q +:+ " " +:+ search_term)]>
                           params)) w).
Proof.
  unfold _get_sitelinks.
  unfold getitem.
  destruct (params !! "query") as [v|] eqn:Hq; [|left; reflexivity].
  rewrite run_lift_inr.
  destruct v as [| | |q| | | |]; try (left; reflexivity).
  cbn [str_concat]. rewrite run_lift_inr.
  right. exists q. split; [done|].
  rewrite run_bind.
  destruct (basic _ _ w) as [[w1 t1] [e|[params' [l|]]]]; cbn;
    by rewrite ?app_nil_r.
Qed.

(** C9: a nested enrichment search runs the basic search path and nothing
    else; the basic path calls the engine's request function once at most
    and the transport once at most, so it starts no enrichment of its own;
    whatever the category configuration, the scan of the results for one
    site starts at most one nested search, enrichment as a whole at most as
    many as there are configured sites, and a whole invocation calls the
    engine at most once more than that. *)
Theorem C9_enrichment_depth_and_fanout :
  (forall params search_term w,
      events (sitelinks params search_term w) = []
      \/ exists q,
          params !! "query" = Some (PStr q)
          /\ events (sitelinks params search_term w)
             = events (basic (q +:+ " " +:+ search_term)
                         (<["category" := PStr "sitelinks"]>
                            (<["query" := PStr (q +:+ " " +:+ search_term)]>
                               params)) w))
  /\ (forall query params,
         emits_at_most is_request 1 (basic query params)
         /\ emits_at_most is_send 1 (basic query params))
  /\ (forall params site expression search_results,
         emits_at_most is_request 1
           (scan_results engine network re_match params site expression
              search_results))
  /\ (forall search_results params,
         emits_at_most is_request
           (List.length (force_sitelink_websites settings))
           (_add_forced_sitelinks engine network re_match settings
              search_results params))
  /\ (forall query params,
         emits_at_most is_request
           (1 + List.length (force_sitelink_websites settings))
           (search engine network re_match settings query params)).
Proof.
  split; [apply get_sitelinks_events|].
  split; [intros; split;
          [apply search_basic_requests|apply search_basic_sends]|].
  split; [apply scan_results_requests|].
  split; [apply add_forced_sitelinks_requests|apply search_requests].
Qed.

(** ** The transport call and its keyword arguments *)

(** what [_send_http_request] does once the arguments are built *)
Lemma send_http_request_run params w is_post args url :
  request_args_of params = inr (is_post, args) ->
  getitem params "url" = inr url ->
  send params w =
  match (if is_post then post network else get network) url args w with
  | (w', inl e) => (w', [EvSend is_post url args], inl e)
  | (w', inr resp) =>
      match as_int (soft_max_redirects_of params) with
      | None =>
          (w', [EvSend is_post url args],
           inl (mkExn TypeError "'>' not supported"))
      | Some soft =>
          if soft <? Z.of_nat (List.length (history resp)) then
            (w', [EvSend is_post url args;
                  EvCountError (name engine)
                    (redirect_message (List.length (history resp))
                       (soft_max_redirects_of params))
                    (status_code_str resp, reason_phrase resp, url_host resp)
                    true],
             inr resp)
          else (w', [EvSend is_post url args], inr resp)
      end
  end.
Proof.
  intros Hargs Hurl. unfold _send_http_request.
  rewrite Hargs, run_lift_inr, Hurl, run_lift_inr, run_emit, run_bind.
  unfold call.
  destruct ((if is_post then post network else get network) url args w)
    as [w' [e|resp]]; [done|].
  destruct (as_int _); [|done].
  destruct (_ <? _); done.
Qed.

(** every transport call of [_send_http_request] carries the arguments of
    [request_args_of] *)
Lemma send_http_request_event params w is_post url args :
  EvSend is_post url args ∈ events (send params w) ->
  request_args_of params = inr (is_post, args)
  /\ getitem params "url" = inr url.
Proof.
  destruct (request_args_of params) as [e|[is_post' args']] eqn:Hargs.
  { unfold _send_http_request. rewrite Hargs.
    cbn. by intros ?%elem_of_nil. }
  destruct (getitem params "url") as [e|url'] eqn:Hurl.
  { unfold _send_http_request. rewrite Hargs, run_lift_inr, Hurl.
    cbn. by intros ?%elem_of_nil. }
  rewrite (send_http_request_run _ _ _ _ _ Hargs Hurl).
  destruct ((if is_post' then post network else get network) url' args' w)
    as [w' [e|resp]]; cbn.
  { intros ?%list_elem_of_singleton. by simplify_eq. }
  destruct (as_int _); cbn.
  2:{ intros ?%list_elem_of_singleton. by simplify_eq. }
  destruct (_ <? _); cbn.
  - rewrite elem_of_cons, list_elem_of_singleton. intros [?|?]; by simplify_eq.
  - intros ?%list_elem_of_singleton. by simplify_eq.
Qed.


Lemma request_args_of_post params args :
  request_args_of params = inr (true, args) ->
  args !! "data" = attached params "data"
  /\ args !! "json" = attached params "json"
  /\ args !! "content" = attached params "content".
Proof.
  unfold request_args_of, attached, getitem, mbind, err_bind, dict_get.
  destruct (params !! "headers") as [headers|]; [|done].
  destruct (params !! "cookies") as [cookies|]; [|done].
  destruct (params !! "auth") as [auth|]; [|done].
  destruct (params !! "method") as [method|]; [|done].
  destruct (eq_str method "GET"); [done|].
  destruct (params !! "data") as [data|]; [|done].
  destruct (params !! "json") as [json|]; [|done].
  destruct (params !! "content") as [content|]; [|done].
  intros [= <-]. by lookup_keys.
Qed.

Lemma request_args_of_get params args :
  request_args_of params = inr (false, args) ->
  args !! "data" = None /\ args !! "json" = None /\ args !! "content" = None.
Proof.
  unfold request_args_of, attached, getitem, mbind, err_bind, dict_get.
  destruct (params !! "headers") as [headers|]; [|done].
  destruct (params !! "cookies") as [cookies|]; [|done].
  destruct (params !! "auth") as [auth|]; [|done].
  destruct (params !! "method") as [method|]; [|done].
  destruct (eq_str method "GET").
  - intros [= <-]. by lookup_keys.
  - destruct (params !! "data") as [data|]; [|done].
    destruct (params !! "json") as [json|]; [|done].
    by destruct (params !! "content") as [content|].
Qed.

Lemma request_args_of_options params is_post args :
  request_args_of params = inr (is_post, args) ->
  (is_Some (params !! "headers") /\ args !! "headers" = params !! "headers")
  /\ (is_Some (params !! "cookies") /\ args !! "cookies" = params !! "cookies")
  /\ (is_Some (params !! "auth") /\ args !! "auth" = params !! "auth")
  /\ args !! "verify"
     = match params !! "verify" with
       | Some v => if is_None v then None else Some v
       | None => None
       end
  /\ args !! "max_redirects"
     = match params !! "max_redirects" with
       | Some v => if truthy v then Some v else None
       | None => None
       end
  /\ args !! "allow_redirects" = params !! "allow_redirects".
Proof.
  unfold request_args_of, getitem, mbind, err_bind, dict_get.
  destruct (params !! "headers") as [headers|]; [|done].
  destruct (params !! "cookies") as [cookies|]; [|done].
  destruct (params !! "auth") as [auth|]; [|done].
  destruct (params !! "method") as [method|]; [|done].
  destruct (eq_str method "GET").
  - intros [= <- <-]. lookup_keys.
    repeat split; eauto.
    + by destruct (params !! "verify") as [[]|].
    + by destruct (params !! "max_redirects") as [v|]; cbn.
    + by destruct (params !! "allow_redirects").
  - destruct (params !! "data") as [data|]; [|done].
    destruct (params !! "json") as [json|]; [|done].
    destruct (params !! "content") as [content|]; [|done].
    intros [= <- <-]. lookup_keys.
    repeat split; eauto.
    + by destruct (params !! "verify") as [[]|].
    + by destruct (params !! "max_redirects") as [v|]; cbn.
    + by destruct (params !! "allow_redirects").
Qed.

(** C2 (as the code has it): on a POST dispatch every non-empty body
    variant - form data, JSON, raw bytes - is attached to the transport
    call under its own keyword and every empty one is left out; nothing
    drops a later variant because an earlier one is set. *)
Theorem C2_every_nonempty_body_attached params w url args evs :
  events (send params w) = EvSend true url args :: evs ->
  args !! "data" = attached params "data"
  /\ args !! "json" = attached params "json"
  /\ args !! "content" = attached params "content".
Proof.
  intros Hev. apply request_args_of_post.
  apply (send_http_request_event params w true url args).
  rewrite Hev. left.
Qed.

(** C8 (as the code has it): a transport call always carries [headers],
    [cookies] and [auth] with the values of the request parameters, whose
    keys must exist; [verify] is passed exactly when it is present and not
    [None], [max_redirects] exactly when it is present and true (non-zero),
    [allow_redirects] exactly when its key is present. *)
Theorem C8_transport_options params w is_post url args evs :
  events (send params w) = EvSend is_post url args :: evs ->
  (is_Some (params !! "headers") /\ args !! "headers" = params !! "headers")
  /\ (is_Some (params !! "cookies") /\ args !! "cookies" = params !! "cookies")
  /\ (is_Some (params !! "auth") /\ args !! "auth" = params !! "auth")
  /\ args !! "verify"
     = match params !! "verify" with
       | Some v => if is_None v then None else Some v
       | None => None
       end
  /\ args !! "max_redirects"
     = match params !! "max_redirects" with
       | Some v => if truthy v then Some v else None
       | None => None
       end
  /\ args !! "allow_redirects" = params !! "allow_redirects".
Proof.
  intros Hev. apply (request_args_of_options params is_post).
  apply (send_http_request_event params w is_post url args).
  rewrite Hev. left.
Qed.

(** C4: when the transport returns a response whose redirect history is
    longer than the soft limit, [_send_http_request] records exactly one
    incident, tagged secondary, and returns that response. *)
Theorem C4_soft_redirect_limit_is_not_fatal
    params w is_post args url w' resp soft :
  request_args_of params = inr (is_post, args) ->
  getitem params "url" = inr url ->
  (if is_post then post network else get network) url args w
  = (w', inr resp) ->
  as_int (soft_max_redirects_of params) = Some soft ->
  soft < Z.of_nat (List.length (history resp)) ->
  outcome (send params w) = inr resp
  /\ List.filter is_count_error (events (send params w))
     = [EvCountError (name engine)
          (redirect_message (List.length (history resp))
             (soft_max_redirects_of params))
          (status_code_str resp, reason_phrase resp, url_host resp)
          true].
Proof.
  intros Hargs Hurl Hcall Hsoft Hlt.
  rewrite (send_http_request_run _ _ _ _ _ Hargs Hurl), Hcall, Hsoft.
  apply Z.ltb_lt in Hlt. by rewrite Hlt.
Qed.

(** ** Sitelink post-processing *)

(** C6: when the nested search of [_get_sitelinks] returns a sequence,
    the sitelinks are that sequence without its first element and then
    without the elements that have no URL; an empty sequence gives an
    empty list, and [R0; R1; R2] with [R1] lacking a URL gives [R2]. *)
Theorem C6_sitelink_post_processing
    params search_term w q w' evs params' nested :
  params !! "query" = Some (PStr q) ->
  basic (q +:+ " " +:+ search_term)
    (<["category" := PStr "sitelinks"]>
       (<["query" := PStr (q +:+ " " +:+ search_term)]> params)) w
  = (w', evs, inr (params', Some nested)) ->
  sitelinks params search_term w
  = (w', evs, inr (List.filter has_url (tail nested)))
  /\ (nested = [] -> outcome (sitelinks params search_term w) = inr [])
  /\ (forall r0 r1 r2,
         nested = [r0; r1; r2] -> has_url r1 = false -> has_url r2 = true ->
         outcome (sitelinks params search_term w) = inr [r2]).
Proof.
  intros Hq Hbasic.
  assert (sitelinks params search_term w
          = (w', evs, inr (List.filter has_url (tail nested)))) as Hrun.
  { unfold _get_sitelinks, getitem. rewrite Hq, run_lift_inr.
    cbn [str_concat]. rewrite run_lift_inr, run_bind.
    change (q +:+ (" " +:+ search_term)) with (q +:+ " " +:+ search_term).
    rewrite Hbasic. cbn. rewrite app_nil_r.
    by destruct nested. }
  rewrite Hrun. split; [done|]. split.
  - by intros ->.
  - intros r0 r1 r2 -> H1 H2. cbn. by rewrite H1, H2.
Qed.

(** ** The reserved category and the empty URL *)

Lemma sites_loop_disabled_category sites search_results params c w :
  params !! "category" = Some c ->
  existsb (eq_str c) (force_sitelinks_categories settings) = false ->
  sites_loop engine network re_match settings sites search_results params w
  = (w, [], inr search_results).
Proof.
  intros Hc Hcat. induction sites as [|site sites IH]; [done|].
  cbn [sites_loop]. unfold getitem. rewrite Hc, run_lift_inr, Hcat. apply IH.
Qed.

(** enrichment leaves the results alone when the current category is not
    among the configured ones *)
Lemma add_forced_sitelinks_disabled_category search_results params c w :
  params !! "category" = Some c ->
  existsb (eq_str c) (force_sitelinks_categories settings) = false ->
  _add_forced_sitelinks engine network re_match settings
    search_results params w
  = (w, [], inr search_results).
Proof. apply sites_loop_disabled_category. Qed.

(** without results there is nothing to enrich: no event, and either the
    missing results are handed back or an exception is raised *)
Lemma sites_loop_no_results sites params w :
  exists r,
    sites_loop engine network re_match settings sites None params w
    = (w, [], r)
    /\ (r = inr None \/ exists e, r = inl e).
Proof.
  induction sites as [|site sites IH]; [exists (inr None); by split; [|left]|].
  cbn [sites_loop].
  destruct (getitem params "category") as [e|c];
    [exists (inl e); split; [done|right; by exists e]|].
  rewrite run_lift_inr. destruct (negb _); [done|].
  destruct (any_term_in_query _ _) as [e|[|]];
    [exists (inl e); split; [done|right; by exists e]
    |by rewrite run_lift_inr|rewrite run_lift_inr].
  eexists; split; [done|right; by eexists].
Qed.

(** an engine that leaves the URL empty is never dispatched *)
Lemma search_empty_url_never_dispatches query params w w1 params1 url :
  request engine query params w = (w1, inr params1) ->
  params1 !! "url" = Some url ->
  truthy url = false ->
  List.filter is_send
    (events (search engine network re_match settings query params w)) = []
  /\ outcome (search engine network re_match settings query params w)
     = inr tt.
Proof.
  intros Hreq Hurl Hfalsy.
  assert (basic query params w
          = (w1, [EvRequest query params], inr (params1, None))) as Hbasic.
  { unfold _search_basic. rewrite run_emit, run_bind. unfold call.
    rewrite Hreq. cbn. unfold getitem. rewrite Hurl, run_lift_inr, Hfalsy.
    done. }
  unfold search, init_network_in_thread. rewrite run_emit.
  unfold try_except, search_try. rewrite run_bind, Hbasic, run_bind.
  destruct (_ && _).
  - unfold _add_forced_sitelinks.
    destruct (sites_loop_no_results (force_sitelink_websites settings)
                params1 w1) as (r & -> & [->|[e ->]]); [done|].
    unfold search_except. by destruct (exn_cls e).
  - done.
Qed.

(** ... and when enrichment is switched off the invocation ends without
    any incident *)
Lemma search_empty_url_without_enrichment query params w w1 params1 url :
  request engine query params w = (w1, inr params1) ->
  params1 !! "url" = Some url ->
  truthy url = false ->
  force_sitelinks_categories settings = []
  \/ force_sitelink_websites settings = [] ->
  search engine network re_match settings query params w
  = (w1, [EvInitNetwork (name engine); EvRequest query params;
          EvExtendContainer None], inr tt).
Proof.
  intros Hreq Hurl Hfalsy Hoff.
  unfold search, init_network_in_thread. rewrite run_emit.
  unfold try_except, search_try. rewrite run_bind.
  unfold _search_basic. rewrite run_emit, run_bind. unfold call.
  rewrite Hreq. cbn. unfold getitem. rewrite Hurl, run_lift_inr, Hfalsy.
  cbn. rewrite run_bind.
  destruct Hoff as [-> | ->]; cbn; by rewrite ?andb_false_r.
Qed.

(** ** Failure classification *)

Lemma filter_count_0 P (evs : list event) :
  count P evs = 0%nat -> List.filter P evs = [].
Proof. unfold count. by destruct (List.filter P evs). Qed.

(** C5: when the body of the [try] statement raises a TLS error the
    invocation records exactly one incident, with suspend set; when it
    raises an exception outside the taxonomy it records exactly one
    incident, with suspend unset; in both cases [search] itself returns
    normally. *)
Theorem C5_one_incident_per_failure query params w w' evs e :
  search_try engine network re_match settings query params w
  = (w', evs, inl e) ->
  (exn_cls e = SSLError ->
   List.filter is_handle_exception
     (events (search engine network re_match settings query params w))
   = [EvHandleException e true])
  /\ (classified (exn_cls e) = false ->
      List.filter is_handle_exception
        (events (search engine network re_match settings query params w))
      = [EvHandleException e false])
  /\ outcome (search engine network re_match settings query params w)
     = inr tt.
Proof.
  intros Htry.
  pose proof (search_try_handles query params w) as Hnone.
  rewrite Htry in Hnone. cbn in Hnone.
  assert (List.filter is_handle_exception evs = []) as Hevs
    by (apply filter_count_0; lia).
  unfold search, init_network_in_thread. rewrite run_emit.
  unfold try_except. rewrite Htry. unfold search_except, handle_exception.
  split; [|split].
  - intros ->. cbn. by rewrite List.filter_app, Hevs.
  - intros Hc. destruct (exn_cls e); try discriminate Hc;
      cbn; by rewrite List.filter_app, Hevs.
  - by destruct (exn_cls e).
Qed.
End Processor.

(** ** Accept-Language *)

(** C7: for parameters built by [get_params] for an engine that sends the
    Accept-Language header and a query with a locale, the header is
    [<lang>-<territory>,<lang>;q=0.9,*;q=0.5] when the locale has a
    territory and the plain language tag when it has none. *)
Theorem C7_accept_language base useragent search_query params loc :
  get_params true (Some base) useragent search_query = inr (Some params) ->
  locale search_query = Some loc ->
  (forall terr,
      territory loc = Some terr -> terr <> "" ->
      header params "Accept-Language"
      = Some (PStr (language loc +:+ "-" +:+ terr +:+ ","
                    +:+ language loc +:+ ";q=0.9,*;q=0.5")))
  /\ (territory loc = None \/ territory loc = Some "" ->
      header params "Accept-Language" = Some (PStr (language loc))).
Proof.
  unfold get_params, header. intros Hget Hloc. rewrite Hloc in Hget.
  destruct (getitem _ "headers") as [e|[| | | | | |h|]]; try discriminate Hget.
  cbn in Hget. injection Hget as <-.
  rewrite lookup_insert_eq, lookup_insert_eq. unfold accept_language.
  split.
  - intros terr -> Hne. cbn.
    destruct (String.eqb_spec terr ""); [done|]. reflexivity.
  - by intros [-> | ->].
Qed.


(** ** The processor on explicit inputs *)

Import Scenario.

Lemma C2_witness :
  two_bodies_args !! "data" = attached two_bodies "data"
  /\ two_bodies_args !! "json" = attached two_bodies "json"
  /\ two_bodies_args !! "content" = attached two_bodies "content".
Proof.
  apply (C2_every_nonempty_body_attached demo_engine demo_network two_bodies tt
           (PStr "https://engine.example/api") two_bodies_args []).
  vm_compute. reflexivity.
Defined.

(** C2, as stated, fails: with a non-empty form body and a non-empty JSON
    body the transport call carries both. *)
Lemma C2_counterexample :
  events (_send_http_request demo_engine demo_network two_bodies tt)
  = [EvSend true (PStr "https://engine.example/api") two_bodies_args]
  /\ two_bodies_args !! "data" = Some (PDict {["q" := PStr "test"]})
  /\ truthy (PDict {["q" := PStr "test"]}) = true
  /\ two_bodies_args !! "json" = Some (PDict {["k" := PInt 1]}).
Proof. vm_compute. repeat split. Qed.

Lemma C8_witness :
  (is_Some (with_url !! "headers")
   /\ with_url_args !! "headers" = with_url !! "headers")
  /\ (is_Some (with_url !! "cookies")
      /\ with_url_args !! "cookies" = with_url !! "cookies")
  /\ (is_Some (with_url !! "auth")
      /\ with_url_args !! "auth" = with_url !! "auth")
  /\ with_url_args !! "verify"
     = match with_url !! "verify" with
       | Some v => if is_None v then None else Some v
       | None => None
       end
  /\ with_url_args !! "max_redirects"
     = match with_url !! "max_redirects" with
       | Some v => if truthy v then Some v else None
       | None => None
       end
  /\ with_url_args !! "allow_redirects" = with_url !! "allow_redirects".
Proof.
  apply (C8_transport_options demo_engine demo_network with_url tt false
           (PStr "https://engine.example/") with_url_args []).
  vm_compute. reflexivity.
Defined.

(** C8, as stated, fails: without the [auth] key no transport call is made
    at all, a [KeyError] is raised instead; and with [auth] left at [None]
    the transport call still carries [auth]. *)
Lemma C8_counterexample :
  no_auth !! "auth" = None
  /\ _send_http_request demo_engine demo_network no_auth tt
     = (tt, [], inl (mkExn KeyError "auth"))
  /\ with_url !! "auth" = Some PNone
  /\ events (_send_http_request demo_engine demo_network with_url tt)
     = [EvSend false (PStr "https://engine.example/") with_url_args]
  /\ with_url_args !! "auth" = Some PNone.
Proof. vm_compute. repeat split. Qed.

Lemma C4_witness :
  outcome (_send_http_request demo_engine redirecting_network with_url tt)
  = inr redirected_response
  /\ List.filter is_count_error
       (events (_send_http_request demo_engine redirecting_network with_url tt))
     = [EvCountError "demo" "1 redirects, maximum: 0"
          ("200", "OK", "www.engine.example") true].
Proof.
  apply (C4_soft_redirect_limit_is_not_fatal demo_engine redirecting_network
           with_url tt false with_url_args (PStr "https://engine.example/")
           tt redirected_response 0).
  - vm_compute. reflexivity.
  - reflexivity.
  - reflexivity.
  - reflexivity.
  - simpl. lia.
Defined.

Lemma C6_witness :
  _get_sitelinks demo_engine demo_network (query_params "general") "wiki" tt
  = (tt, nested_events "general", inr [R2]).
Proof.
  apply (C6_sitelink_post_processing demo_engine demo_network
           (query_params "general") "wiki" tt "test" tt
           (nested_events "general") (nested_params_sent "general")
           [R0; R1; R2]).
  - reflexivity.
  - vm_compute. reflexivity.
Defined.

Lemma C5_witness :
  List.filter is_handle_exception
    (events (search demo_engine tls_failing_network re_match_dotstar
               (mkSettings [] []) "test" (query_params "general") tt))
  = [EvHandleException tls_error true]
  /\ List.filter is_handle_exception
       (events (search failing_parser_engine demo_network re_match_dotstar
                  (mkSettings [] []) "test" (query_params "general") tt))
     = [EvHandleException value_error false].
Proof.
  split.
  - eapply (C5_one_incident_per_failure demo_engine tls_failing_network
              re_match_dotstar (mkSettings [] []) "test"
              (query_params "general") tt tt _ tls_error).
    + vm_compute. reflexivity.
    + reflexivity.
  - eapply (C5_one_incident_per_failure failing_parser_engine demo_network
              re_match_dotstar (mkSettings [] []) "test"
              (query_params "general") tt tt _ value_error).
    + vm_compute. reflexivity.
    + reflexivity.
Defined.

Lemma C7_witness :
  header (<["headers" :=
              PDict (<["Accept-Language" := PStr "en-US,en;q=0.9,*;q=0.5"]>
                       {["User-Agent" := PStr "Mozilla/5.0"]})]>
            (base_params ∪ default_request_params))
    "Accept-Language"
  = Some (PStr "en-US,en;q=0.9,*;q=0.5")
  /\ header (<["headers" :=
                 PDict (<["Accept-Language" := PStr "en"]>
                          {["User-Agent" := PStr "Mozilla/5.0"]})]>
               (base_params ∪ default_request_params))
       "Accept-Language"
     = Some (PStr "en").
Proof.
  split.
  - assert (get_params true (Some base_params) "Mozilla/5.0" en_US
            = inr (Some (<["headers" :=
                PDict (<["Accept-Language" := PStr "en-US,en;q=0.9,*;q=0.5"]>
                         {["User-Agent" := PStr "Mozilla/5.0"]})]>
              (base_params ∪ default_request_params)))) as Hget
      by (vm_compute; reflexivity).
    apply (proj1 (C7_accept_language base_params "Mozilla/5.0" en_US _
                    (mkLocale "en" (Some "US")) Hget eq_refl) "US").
    + reflexivity.
    + discriminate.
  - assert (get_params true (Some base_params) "Mozilla/5.0" en
            = inr (Some (<["headers" :=
                PDict (<["Accept-Language" := PStr "en"]>
                         {["User-Agent" := PStr "Mozilla/5.0"]})]>
              (base_params ∪ default_request_params)))) as Hget
      by (vm_compute; reflexivity).
    apply (proj2 (C7_accept_language base_params "Mozilla/5.0" en _
                    (mkLocale "en" None) Hget eq_refl)).
    left. reflexivity.
Defined.

(** C1 on an explicit input: the category list contains the reserved
    category, the current category is [sitelinks], and the first result
    matches the configured site.  The invocation calls the engine twice: for
    the query itself and, nested, for [test wiki]; the sitelinks found are
    attached to the first result. *)
Theorem C1_reserved_category_is_enriched :
  List.filter is_request
    (events (search demo_engine demo_network re_match_dotstar
               (mkSettings ["sitelinks"] [wiki_site]) "test"
               (query_params "sitelinks") tt))
  = [EvRequest "test" (query_params "sitelinks");
     EvRequest "test wiki" nested_of_primary]
  /\ _add_forced_sitelinks demo_engine demo_network re_match_dotstar
       (mkSettings ["sitelinks"] [wiki_site]) (Some [R0])
       (query_params "sitelinks") tt
     = (tt, nested_events "sitelinks",
        inr (Some [PDict (<["sitelinks" := PList [R2]]>
                            {["url" := PStr "https://example.org/"]})])).
Proof. vm_compute. split; reflexivity. Qed.

(** C3 on an explicit input: the engine leaves the URL empty while
    enrichment is configured for the current category; the transport is not
    called, but iterating over the missing results raises a [TypeError],
    which is recorded as an incident. *)
Theorem C3_empty_url_records_an_incident :
  search silent_engine demo_network re_match_dotstar
    (mkSettings ["general"] [wiki_site]) "test" (query_params "general") tt
  = (tt,
     [EvInitNetwork "silent";
      EvRequest "test" (query_params "general");
      EvHandleException
        (mkExn TypeError "'NoneType' object is not iterable") false],
     inr tt).
Proof. vm_compute. reflexivity. Qed.

End OnlineFacts.

(** * Properties of the tracker URL remover *)

Module TrackerFacts.
Import TrackerUrlRemover.

Lemma list_remove_first x before after :
  x ∉ before ->
  list_remove x (before ++ x :: after) = Some (before ++ after).
Proof.
  induction before as [|y before IH]; intros Hx; cbn.
  - by rewrite decide_True.
  - apply not_elem_of_cons in Hx as [Hne Hx].
    rewrite decide_False by done. by rewrite IH.
Qed.

Lemma replace_query_twice pu q1 q2 :
  replace_query (replace_query pu q1) q2 = replace_query pu q2.
Proof. done. Qed.

(** The loop removes exactly the parameters whose name matches a pattern:
    when [done] holds the parameters already visited that stay and [todo]
    those still to visit, it ends with [done] followed by the parameters of
    [todo] that stay; the URL is rewritten from that list if [todo] holds a
    tracker and left alone otherwise. *)
Lemma clear_loop_spec todo : forall done_ pu u,
  forallb kept done_ = true ->
  clear_loop todo (done_ ++ todo) pu u
  = inr (done_ ++ List.filter kept todo,
         (if forallb kept todo then pu
          else replace_query pu (urlencode (done_ ++ List.filter kept todo))),
         (if forallb kept todo then u
          else Some (urlunparse
                       (replace_query pu
                          (urlencode (done_ ++ List.filter kept todo)))))).
Proof.
  induction todo as [|nv todo IH]; intros done_ pu u Hdone; cbn [clear_loop].
  - cbn. by rewrite app_nil_r.
  - cbn [List.filter forallb].
    destruct (kept nv) eqn:Hk; cbn [andb].
    + assert (matches_tracker nv.1 = false) as ->
        by (unfold kept in Hk; by destruct (matches_tracker nv.1)).
      replace (done_ ++ nv :: todo) with ((done_ ++ [nv]) ++ todo)
        by by rewrite <-app_assoc.
      rewrite IH; [by rewrite <-app_assoc|].
      rewrite forallb_app, Hdone. cbn. by rewrite Hk.
    + assert (matches_tracker nv.1 = true) as ->
        by (unfold kept in Hk; by destruct (matches_tracker nv.1)).
      rewrite list_remove_first.
      2:{ intros Hin%list_elem_of_In.
          rewrite forallb_forall in Hdone. specialize (Hdone _ Hin).
          by rewrite Hk in Hdone. }
      rewrite (IH done_ _ _ Hdone). rewrite replace_query_twice.
      destruct (forallb kept todo) eqn:Hall; [|done].
      assert (List.filter kept todo = todo) as ->; [|done].
      clear -Hall. induction todo as [|x todo IH]; [done|].
      cbn in *. apply andb_prop in Hall as [-> ?]. by rewrite IH.
Qed.

(** [_clear_trackers] never raises.  A result without a parsed URL is left
    as it is; so is one whose decoded query holds no tracker.  Otherwise
    the query becomes the encoding of the decoded parameters that are no
    trackers, in their order, and the URL is rebuilt from the parsed URL. *)
Lemma clear_trackers_spec result :
  _clear_trackers result
  = inr match parsed_url result with
        | None => result
        | Some pu =>
            if forallb kept (parse_qsl (query pu)) then
              mkResult (url result) (Some pu) (sitelinks result)
            else
              mkResult (Some (urlunparse (cleaned pu))) (Some (cleaned pu))
                       (sitelinks result)
        end.
Proof.
  unfold _clear_trackers. destruct (parsed_url result) as [pu|]; [|done].
  pose proof (clear_loop_spec (parse_qsl (query pu)) [] pu (url result) eq_refl)
    as Hloop.
  cbn [app] in Hloop. cbn zeta. rewrite Hloop.
  by destruct (forallb kept _).
Qed.

Lemma clear_trackers_total result :
  exists result', _clear_trackers result = inr result'.
Proof. rewrite clear_trackers_spec. eauto. Qed.

Lemma clear_trackers_no_parsed_url result :
  parsed_url result = None -> _clear_trackers result = inr result.
Proof. intros H. rewrite clear_trackers_spec. by rewrite H. Qed.

Lemma clear_trackers_no_tracker result pu :
  parsed_url result = Some pu ->
  forallb kept (parse_qsl (query pu)) = true ->
  _clear_trackers result = inr result.
Proof.
  intros Hpu Hkept. rewrite clear_trackers_spec, Hpu, Hkept.
  destruct result; cbn in *. by subst.
Qed.

Lemma clear_all_total links :
  exists links', clear_all links = inr links'.
Proof.
  induction links as [|link links [links' IH]]; [by eexists|].
  cbn [clear_all]. destruct (clear_trackers_total link) as [link' ->].
  cbn. rewrite IH. by eexists.
Qed.

(** [on_result] never raises and always returns [True] *)
Lemma on_result_returns_true result :
  exists result', on_result result = inr (result', true).
Proof.
  unfold on_result.
  assert (exists links,
             match sitelinks result with
             | Some (sitelink :: rest) => Some <$> clear_all (sitelink :: rest)
             | other => inr other
             end = inr links) as [links ->].
  { destruct (sitelinks result) as [[|link rest]|]; [by eexists| |by eexists].
    destruct (clear_all_total (link :: rest)) as [links' ->]. by eexists. }
  cbn.
  destruct (clear_trackers_total
              (mkResult (url result) (parsed_url result) links)) as [r ->].
  by eexists.
Qed.

(** ** The plugin on explicit URLs *)

Import Scenario.

(** C10 on explicit inputs: a parameter with an empty value is not among
    the decoded parameters.  Next to a tracker it disappears from the URL
    although its name matches no pattern; and a tracker with an empty value
    stays in the URL. *)
Theorem C10_blank_values_are_mishandled :
  matches_tracker "page" = false
  /\ _clear_trackers (listing "page=&utm_source=feed")
     = inr (mkResult (Some "https://example.com/list")
              (Some (mkParseResult "https" "example.com" "/list" "" "" ""))
              None)
  /\ matches_tracker "utm_source" = true
  /\ _clear_trackers (listing "utm_source=&page=2")
     = inr (listing "utm_source=&page=2").
Proof. vm_compute. repeat split. Qed.

End TrackerFacts.

(** * More on the tracker URL remover *)

Module TrackerMore.
Import TrackerUrlRemover.

(** ** Encoding and decoding of query strings *)

Lemma quote_plus_cons c s :
  quote_plus (String c s) = quote_char c +:+ quote_plus s.
Proof.
  unfold quote_char. cbn [quote_plus].
  destruct (always_safe c); [done|]. by destruct (Ascii.eqb c " ").
Qed.

Lemma decode_quote_char c t :
  unquote (plus_to_space (quote_char c +:+ t))
  = String c (unquote (plus_to_space t)).
Proof. destruct c as [[] [] [] [] [] [] [] []]; reflexivity. Qed.

Lemma unquote_quote_plus s : unquote (plus_to_space (quote_plus s)) = s.
Proof.
  induction s as [|c s IH]; [done|].
  by rewrite quote_plus_cons, decode_quote_char, IH.
Qed.

Lemma lacks_app x a b : lacks x (a +:+ b) = lacks x a && lacks x b.
Proof.
  induction a as [|c a IH]; [done|].
  change (String c a +:+ b) with (String c (a +:+ b)).
  cbn [lacks]. rewrite IH. by rewrite andb_assoc.
Qed.

(** [quote_plus] quotes both separators of a query string *)
Lemma quote_char_lacks c :
  lacks "&" (quote_char c) = true /\ lacks "=" (quote_char c) = true.
Proof. destruct c as [[] [] [] [] [] [] [] []]; split; reflexivity. Qed.

Lemma quote_plus_lacks s :
  lacks "&" (quote_plus s) = true /\ lacks "=" (quote_plus s) = true.
Proof.
  induction s as [|c s [IH1 IH2]]; [done|].
  rewrite quote_plus_cons, !lacks_app, IH1, IH2.
  by destruct (quote_char_lacks c) as [-> ->].
Qed.

Lemma quote_plus_nonempty s : s <> "" -> quote_plus s <> "".
Proof.
  destruct s as [|c s]; [done|]. intros _. rewrite quote_plus_cons.
  destruct c as [[] [] [] [] [] [] [] []]; discriminate.
Qed.

Lemma split_whole a : lacks "&" a = true -> split "&" a = [a].
Proof.
  induction a as [|c a IH]; [done|]. cbn [split lacks].
  destruct (Ascii.eqb c "&"); [done|]. cbn [negb andb].
  intros Ha. by rewrite IH.
Qed.

Lemma split_at_separator a b :
  lacks "&" a = true -> split "&" (a +:+ String "&" b) = a :: split "&" b.
Proof.
  induction a as [|c a IH]; [done|].
  change (String c a +:+ String "&" b) with (String c (a +:+ String "&" b)).
  cbn [split lacks].
  destruct (Ascii.eqb c "&"); [done|]. cbn [negb andb].
  intros Ha. by rewrite IH.
Qed.

Lemma split_eq_at_separator a b :
  lacks "=" a = true -> split_eq (a +:+ String "=" b) = Some (a, b).
Proof.
  induction a as [|c a IH]; [done|].
  change (String c a +:+ String "=" b) with (String c (a +:+ String "=" b)).
  cbn [split_eq lacks].
  destruct (Ascii.eqb c "="); [done|]. cbn [negb andb].
  intros Ha. by rewrite IH.
Qed.

Lemma encoded_pair_lacks k v :
  lacks "&" (quote_plus k +:+ "=" +:+ quote_plus v) = true.
Proof.
  rewrite !lacks_app.
  destruct (quote_plus_lacks k) as [-> _], (quote_plus_lacks v) as [-> _].
  done.
Qed.

Lemma parse_field_encoded k v :
  v <> "" ->
  parse_field (quote_plus k +:+ "=" +:+ quote_plus v) = [(k, v)].
Proof.
  intros Hv. unfold parse_field.
  change ("=" +:+ quote_plus v) with (String "=" (quote_plus v)).
  rewrite split_eq_at_separator by apply quote_plus_lacks.
  destruct (String.eqb_spec (quote_plus v) "") as [He|_].
  { by apply quote_plus_nonempty in Hv. }
  by rewrite !unquote_quote_plus.
Qed.

(** decoding what [urlencode] produced gives the pairs back, as long as no
    value is empty *)
Lemma parse_qsl_urlencode l :
  Forall (fun kv : string * string => kv.2 <> "") l ->
  parse_qsl (urlencode l) = l.
Proof.
  unfold parse_qsl, urlencode.
  induction l as [|[k v] l IH]; [done|]. intros [Hv Hl]%Forall_cons.
  cbn [map String.concat fst snd] in *.
  destruct l as [|kv' l].
  - cbn [map]. rewrite split_whole by apply encoded_pair_lacks.
    cbn. by rewrite parse_field_encoded.
  - cbn [map] in *.
    change (?a +:+ "&" +:+ ?b) with (a +:+ String "&" b).
    rewrite split_at_separator by apply encoded_pair_lacks.
    cbn [map List.concat]. rewrite parse_field_encoded by done.
    cbn. f_equal. by apply IH.
Qed.

Lemma unquote_nonempty s : s <> "" -> unquote (plus_to_space s) <> "".
Proof.
  destruct s as [|c s]; [done|]. intros _. cbn.
  destruct (Ascii.eqb _ "%"); [|done].
  destruct (plus_to_space s) as [|a [|b rest]]; [done..|].
  by destruct (hex_value a), (hex_value b).
Qed.

Lemma parse_qsl_values qs :
  Forall (fun kv : string * string => kv.2 <> "") (parse_qsl qs).
Proof.
  unfold parse_qsl. apply Forall_concat, Forall_map, Forall_forall.
  intros field _. unfold parse_field.
  destruct (split_eq field) as [[n v]|]; [|done].
  destruct (String.eqb_spec v ""); [done|].
  apply Forall_singleton. cbn. by apply unquote_nonempty.
Qed.


(** ** What [_clear_trackers] and [on_result] compute *)

Lemma clear_trackers_cleaned result :
  _clear_trackers result = inr (cleaned_result result).
Proof.
  rewrite TrackerFacts.clear_trackers_spec. unfold cleaned_result.
  destruct result as [u [pu|] links]; cbn; [|done].
  by destruct (forallb kept _).
Qed.


Lemma cleaned_has_no_tracker pu :
  forallb kept (parse_qsl (query (cleaned pu))) = true.
Proof.
  unfold cleaned. cbn [query replace_query].
  rewrite parse_qsl_urlencode.
  - apply forallb_forall. by intros kv [_ ?]%filter_In.
  - pose proof (parse_qsl_values (query pu)) as Hall.
    rewrite Forall_forall in Hall |- *.
    intros kv [Hin _]%list_elem_of_In%filter_In. by apply Hall, list_elem_of_In.
Qed.

(** X2: after [_clear_trackers] has rewritten a URL, no decoded parameter
    of the new query has a name that matches a tracker pattern. *)
Theorem X2_no_tracker_left result result' pu pu' :
  _clear_trackers result = inr result' ->
  parsed_url result = Some pu ->
  forallb kept (parse_qsl (query pu)) = false ->
  parsed_url result' = Some pu' ->
  forallb kept (parse_qsl (query pu')) = true.
Proof.
  rewrite clear_trackers_cleaned. unfold cleaned_result.
  intros [= <-] -> Hsome. rewrite Hsome. cbn. intros [= <-].
  apply cleaned_has_no_tracker.
Qed.

Lemma cleaned_result_twice result :
  cleaned_result (cleaned_result result) = cleaned_result result.
Proof.
  unfold cleaned_result at 2.
  destruct (parsed_url result) as [pu|] eqn:Hpu.
  - destruct (forallb kept (parse_qsl (query pu))) eqn:Hk.
    + unfold cleaned_result. by rewrite Hpu, Hk.
    + unfold cleaned_result. cbn [parsed_url].
      by rewrite cleaned_has_no_tracker, Hpu, Hk.
  - unfold cleaned_result. by rewrite Hpu.
Qed.

(** X3: [_clear_trackers] is idempotent: applied to a result it has
    already treated, it changes nothing. *)
Theorem X3_clear_trackers_idempotent result result' :
  _clear_trackers result = inr result' ->
  _clear_trackers result' = inr result'.
Proof.
  rewrite !clear_trackers_cleaned. intros [= <-].
  by rewrite cleaned_result_twice.
Qed.

(** X4: [_clear_trackers] touches nothing but the query and the URL: the
    sitelinks and the scheme, host, path, parameters and fragment of the
    parsed URL stay, and when the parsed URL changes the URL is the one
    rebuilt from it. *)
Theorem X4_clear_trackers_frame result result' :
  _clear_trackers result = inr result' ->
  sitelinks result' = sitelinks result
  /\ match parsed_url result, parsed_url result' with
     | None, None => result' = result
     | Some pu, Some pu' =>
         scheme pu' = scheme pu /\ netloc pu' = netloc pu
         /\ path pu' = path pu /\ params pu' = params pu
         /\ fragment pu' = fragment pu
         /\ (result' = result \/ url result' = Some (urlunparse pu'))
     | _, _ => False
     end.
Proof.
  rewrite clear_trackers_cleaned. intros [= <-]. unfold cleaned_result.
  destruct result as [u [pu|] links]; cbn; [|done].
  destruct (forallb kept _); cbn; [by eauto 10|].
  repeat split; by right.
Qed.



(** ** Which names the patterns match *)

Lemma dead_not_nullable r e : dead r = true -> nullable e r = false.
Proof.
  induction r as [| | | | |r1 IH1 r2 IH2|r1 IH1 r2 IH2|]; cbn; try done.
  - intros H. by rewrite IH1.
  - intros [H1 H2]%andb_prop. by rewrite IH1, IH2.
Qed.

Lemma dead_deriv r e c : dead r = true -> dead (deriv e c r) = true.
Proof.
  induction r as [| | | | |r1 IH1 r2 IH2|r1 IH1 r2 IH2|]; cbn; try done.
  - intros H. rewrite (dead_not_nullable r1 e H). cbn. by apply IH1.
  - intros [H1 H2]%andb_prop. by rewrite IH1, IH2.
Qed.

Lemma dead_no_match r s : dead r = true -> re_match r s = false.
Proof.
  revert r. induction s as [|c s IH]; intros r Hr; cbn [re_match].
  - by rewrite dead_not_nullable.
  - rewrite dead_not_nullable by done. cbn. by apply IH, dead_deriv.
Qed.

(** X6: a parameter whose name is empty or starts with a character other
    than [u], [w], [_], [h], [t] and [&] matches no tracker pattern. *)
Theorem X6_other_initials_never_match name :
  (forall c rest, name = String c rest -> c ∉ tracker_initials) ->
  matches_tracker name = false.
Proof.
  destruct name as [|c rest]; [done|]. intros Hc.
  specialize (Hc c rest eq_refl). unfold tracker_initials in Hc.
  repeat (apply not_elem_of_cons in Hc as [? Hc]).
  unfold matches_tracker, regexes. cbn [existsb re_match lit Plus].
  generalize (at_end (String c rest)). intros e.
  cbn [nullable deriv andb orb].
  repeat match goal with
         | |- context [Ascii.eqb ?a c] =>
             replace (Ascii.eqb a c) with false
               by (symmetry; apply Ascii.eqb_neq; congruence)
         end.
  rewrite !dead_no_match by reflexivity. done.
Qed.

(** X7: every parameter whose name starts with [wkey], [wemail], one of
    the HubSpot names or [tl] is treated as a tracker, whatever follows;
    a name that starts with [utm_] and has a further character is treated
    as a tracker exactly when that character is not [&]. *)
Theorem X7_prefixes_always_match :
  Forall (fun p => forall rest, matches_tracker (p +:+ rest) = true)
    tracker_prefixes
  /\ (forall c rest,
         matches_tracker ("utm_" +:+ String c rest) = negb (Ascii.eqb c "&")).
Proof.
  split.
  - unfold tracker_prefixes. repeat apply Forall_cons_2; [..|done].
    all: intros rest; apply existsb_exists; unfold regexes.
    all: cbv [String.append].
    all: first
      [ eexists; split; [right; left; reflexivity|]; by destruct rest
      | eexists; split; [right; right; left; reflexivity|]; by destruct rest
      | eexists; split; [right; right; right; left; reflexivity|];
        by destruct rest ].
  - intros c rest. cbv [String.append].
    unfold matches_tracker, regexes. cbn.
    destruct (Ascii.eqb c "&"); cbn.
    + by rewrite !dead_no_match.
    + by destruct rest.
Qed.

(** ** The plugin on explicit results *)

Import Scenario.

Lemma X2_witness :
  forallb kept (parse_qsl "a=1") = true.
Proof.
  apply (X2_no_tracker_left (listing "a=1&utm_source=feed")
           (mkResult (Some "https://example.com/list?a=1")
              (Some (mkParseResult "https" "example.com" "/list" "" "a=1" ""))
              None)
           (mkParseResult "https" "example.com" "/list" ""
              "a=1&utm_source=feed" "")
           (mkParseResult "https" "example.com" "/list" "" "a=1" "")).
  - vm_compute. reflexivity.
  - reflexivity.
  - vm_compute. reflexivity.
  - reflexivity.
Defined.

Lemma X3_witness :
  _clear_trackers (listing "a=1")
  = inr (listing "a=1").
Proof.
  apply (X3_clear_trackers_idempotent
           (listing "a=1&utm_source=feed&tl=en") (listing "a=1")).
  vm_compute. reflexivity.
Defined.

Lemma X4_witness :
  sitelinks (listing "a=1") = sitelinks (listing "a=1&tl=en")
  /\ match parsed_url (listing "a=1&tl=en"), parsed_url (listing "a=1") with
     | None, None => listing "a=1" = listing "a=1&tl=en"
     | Some pu, Some pu' =>
         scheme pu' = scheme pu /\ netloc pu' = netloc pu
         /\ path pu' = path pu /\ params pu' = params pu
         /\ fragment pu' = fragment pu
         /\ (listing "a=1" = listing "a=1&tl=en"
             \/ url (listing "a=1") = Some (urlunparse pu'))
     | _, _ => False
     end.
Proof.
  apply (X4_clear_trackers_frame (listing "a=1&tl=en") (listing "a=1")).
  vm_compute. reflexivity.
Defined.

Lemma X6_witness : matches_tracker "page" = false.
Proof.
  apply (X6_other_initials_never_match "page").
  intros c rest [= <- _]. unfold tracker_initials.
  repeat (apply not_elem_of_cons; split; [discriminate|]).
  apply not_elem_of_nil.
Defined.

End TrackerMore.

(** * More on the [online] processor *)

Module OnlineMore.
Import Online OnlineFacts.

(** ** The parameter builder *)

(** X8: the parameters built by [get_params] hold, under every key but
    [headers], the base parameter when there is one and the default of
    [default_request_params] otherwise. *)
Theorem X8_get_params_overlay opt base useragent search_query params k :
  get_params opt (Some base) useragent search_query = inr (Some params) ->
  k <> "headers" ->
  params !! k
  = match base !! k with
    | Some v => Some v
    | None => default_request_params !! k
    end.
Proof.
  unfold get_params. intros Hget Hk.
  destruct (getitem _ "headers") as [e|[| | | | | |h|]]; try discriminate Hget.
  cbn in Hget. injection Hget as <-.
  rewrite lookup_insert_ne by done. rewrite lookup_union.
  by destruct (base !! k), (default_request_params !! k).
Qed.

(** X9: the built parameters always carry the generated User-Agent; when
    the engine does not opt in, or the query has no locale, the
    Accept-Language header is whatever the merged parameters already had. *)
Theorem X9_get_params_user_agent opt base useragent search_query params :
  get_params opt (Some base) useragent search_query = inr (Some params) ->
  header params "User-Agent" = Some (PStr useragent)
  /\ (opt = false \/ locale search_query = None ->
      header params "Accept-Language"
      = header (base ∪ default_request_params) "Accept-Language").
Proof.
  unfold get_params, header, getitem. intros Hget.
  destruct ((base ∪ default_request_params) !! "headers")
    as [[| | | | | |h|]|]; try discriminate Hget.
  cbn in Hget.
  apply (f_equal (fun r => match r with inr (Some p) => p | _ => ∅ end))
    in Hget.
  subst params. rewrite lookup_insert_eq. split.
  - destruct opt; [destruct (locale search_query)|].
    + by rewrite lookup_insert_ne, lookup_insert_eq.
    + by rewrite lookup_insert_eq.
    + by rewrite lookup_insert_eq.
  - intros [-> | ->]; [|destruct opt]; by rewrite lookup_insert_ne.
Qed.

Section Processor.
Context {W : Type}.
Variable engine : Engine W.
Variable network : Network W.
Variable re_match : string -> string -> exn + bool.
Variable settings : Settings.

Local Abbreviation send := (_send_http_request engine network).
Local Abbreviation basic := (_search_basic engine network).
Local Abbreviation sitelinks := (_get_sitelinks engine network).
Local Abbreviation search_ := (search engine network re_match settings).

(** ** The dispatch *)

Lemma request_args_of_method params is_post args :
  request_args_of params = inr (is_post, args) ->
  exists method,
    params !! "method" = Some method
    /\ is_post = negb (eq_str method "GET")
    /\ args !! "raise_for_httperror"
       = Some (dict_get params "raise_for_httperror" (PBool true)).
Proof.
  unfold request_args_of, getitem, mbind, err_bind.
  destruct (params !! "headers") as [headers|]; [|done].
  destruct (params !! "cookies") as [cookies|]; [|done].
  destruct (params !! "auth") as [auth|]; [|done].
  destruct (params !! "method") as [method|]; [|done].
  destruct (eq_str method "GET") eqn:Hget.
  - intros [= <- <-]. exists method. rewrite Hget. by lookup_keys.
  - destruct (params !! "data") as [data|]; [|done].
    destruct (params !! "json") as [json|]; [|done].
    destruct (params !! "content") as [content|]; [|done].
    intros [= <- <-]. exists method. rewrite Hget. by lookup_keys.
Qed.

(** X10: the transport is [searx.network.get] exactly when the method is
    the string GET, and [post] for every other value; a GET call carries
    no body even when the parameters hold one; [raise_for_httperror] is
    always passed, [True] when the parameters do not say. *)
Theorem X10_method_selects_transport params w is_post url args evs :
  events (send params w) = EvSend is_post url args :: evs ->
  (exists method,
      params !! "method" = Some method
      /\ is_post = negb (eq_str method "GET"))
  /\ args !! "raise_for_httperror"
     = Some (dict_get params "raise_for_httperror" (PBool true))
  /\ (is_post = false ->
      args !! "data" = None /\ args !! "json" = None
      /\ args !! "content" = None).
Proof.
  intros Hev.
  destruct (send_http_request_event engine network params w is_post url args)
    as [Hargs _]; [rewrite Hev; left|].
  destruct (request_args_of_method _ _ _ Hargs) as (m & Hm & Hp & Hr).
  split; [by exists m|]. split; [done|].
  intros ->. by apply (request_args_of_get params).
Qed.


Lemma request_args_of_names params is_post args k v :
  request_args_of params = inr (is_post, args) ->
  args !! k = Some v ->
  k ∈ request_arg_names.
Proof.
  intros Hargs Hk. destruct (decide (k ∈ request_arg_names)) as [|Hnot]; [done|].
  exfalso. unfold request_arg_names in Hnot.
  repeat (apply not_elem_of_cons in Hnot as [? Hnot]).
  revert Hargs. unfold request_args_of, getitem, mbind, err_bind.
  destruct (params !! "headers") as [headers|]; [|done].
  destruct (params !! "cookies") as [cookies|]; [|done].
  destruct (params !! "auth") as [auth|]; [|done].
  destruct (params !! "method") as [method|]; [|done].
  destruct (eq_str method "GET").
  - intros [= _ <-]. revert Hk.
    repeat first
      [ rewrite dict_lookup_insert_ne by done
      | rewrite lookup_insert_when_ne by done
      | rewrite lookup_insert_unless_ne by done
      | rewrite lookup_insert_opt_ne by done ].
    by rewrite dict_lookup_empty.
  - destruct (params !! "data") as [data|]; [|done].
    destruct (params !! "json") as [json|]; [|done].
    destruct (params !! "content") as [content|]; [|done].
    intros [= _ <-]. revert Hk.
    repeat first
      [ rewrite dict_lookup_insert_ne by done
      | rewrite lookup_insert_when_ne by done
      | rewrite lookup_insert_unless_ne by done
      | rewrite lookup_insert_opt_ne by done ].
    by rewrite dict_lookup_empty.
Qed.

(** X11: the transport only ever receives the ten keywords of
    [request_arg_names]; the URL, the method, the soft redirect limit and
    the search parameters (query, category and the like) are never passed
    as keyword arguments. *)
Theorem X11_only_known_keywords params w is_post url args evs k v :
  events (send params w) = EvSend is_post url args :: evs ->
  args !! k = Some v ->
  k ∈ request_arg_names.
Proof.
  intros Hev.
  destruct (send_http_request_event engine network params w is_post url args)
    as [Hargs _]; [rewrite Hev; left|].
  by apply (request_args_of_names params is_post).
Qed.

(** X12: when the redirect history is not longer than the soft limit, the
    response is returned and nothing is recorded: the transport call is
    the only event. *)
Theorem X12_within_soft_limit params w is_post args url w' resp soft :
  request_args_of params = inr (is_post, args) ->
  getitem params "url" = inr url ->
  (if is_post then post network else get network) url args w
  = (w', inr resp) ->
  as_int (soft_max_redirects_of params) = Some soft ->
  Z.of_nat (List.length (history resp)) <= soft ->
  send params w = (w', [EvSend is_post url args], inr resp).
Proof.
  intros Hargs Hurl Hcall Hsoft Hle.
  rewrite (send_http_request_run _ _ _ _ _ _ _ Hargs Hurl), Hcall, Hsoft.
  apply Z.ltb_ge in Hle. by rewrite Hle.
Qed.

(** X13: an exception of the transport leaves [_send_http_request] as it
    is, after the one transport call and without any incident recorded
    there. *)
Theorem X13_transport_failure_propagates params w is_post args url w' e :
  request_args_of params = inr (is_post, args) ->
  getitem params "url" = inr url ->
  (if is_post then post network else get network) url args w
  = (w', inl e) ->
  send params w = (w', [EvSend is_post url args], inl e).
Proof.
  intros Hargs Hurl Hcall.
  by rewrite (send_http_request_run _ _ _ _ _ _ _ Hargs Hurl), Hcall.
Qed.

Lemma request_args_of_error params e :
  request_args_of params = inl e ->
  exists k, params !! k = None /\ e = mkExn KeyError k.
Proof.
  unfold request_args_of, getitem, mbind, err_bind.
  destruct (params !! "headers") as [headers|] eqn:?;
    [|intros [= <-]; by eexists].
  destruct (params !! "cookies") as [cookies|] eqn:?;
    [|intros [= <-]; by eexists].
  destruct (params !! "auth") as [auth|] eqn:?;
    [|intros [= <-]; by eexists].
  destruct (params !! "method") as [method|] eqn:?;
    [|intros [= <-]; by eexists].
  destruct (eq_str method "GET"); [done|].
  destruct (params !! "data") as [data|] eqn:?;
    [|intros [= <-]; by eexists].
  destruct (params !! "json") as [json|] eqn:?;
    [|intros [= <-]; by eexists].
  destruct (params !! "content") as [content|] eqn:?;
    [|intros [= <-]; by eexists].
  done.
Qed.

(** X14: when one of the keys [headers], [cookies], [auth], [method] or
    [url] is missing, [_send_http_request] raises [KeyError] for a missing
    key before the transport is called: no event, no change of the world. *)
Theorem X14_missing_key_raises params w k :
  k ∈ required_keys ->
  params !! k = None ->
  exists k',
    params !! k' = None
    /\ send params w = (w, [], inl (mkExn KeyError k')).
Proof.
  intros Hk Hnone. unfold _send_http_request.
  destruct (request_args_of params) as [e|[is_post args]] eqn:Hargs.
  { destruct (request_args_of_error _ _ Hargs) as (k' & Hk' & ->).
    by exists k'. }
  rewrite run_lift_inr. unfold getitem.
  destruct (params !! "url") as [url|] eqn:Hurl; [|by exists "url"].
  exfalso.
  destruct (request_args_of_options _ _ _ Hargs)
    as ([[? Hh] _] & [[? Hc] _] & [[? Ha] _] & _).
  destruct (request_args_of_method _ _ _ Hargs) as (m & Hm & _).
  unfold required_keys in Hk.
  repeat (apply elem_of_cons in Hk as [->|Hk]); try congruence.
  by apply elem_of_nil in Hk.
Qed.


(** ** The basic search path *)

Lemma count_0_Forall P (evs : list event) :
  count P evs = 0%nat -> Forall (fun ev => P ev = false) evs.
Proof.
  unfold count. induction evs as [|ev evs IH]; [done|]. cbn.
  destruct (P ev) eqn:Hev; [done|]. intros H. by constructor; [|apply IH].
Qed.

Lemma no_response_Forall (Q : Response -> Prop) (evs : list event) :
  (count is_response evs <= 0)%nat ->
  Forall (fun ev => match ev with EvResponse resp => Q resp | _ => True end)
    evs.
Proof.
  intros H. eapply Forall_impl; [apply (count_0_Forall is_response); lia|].
  by intros [].
Qed.

Lemma send_http_request_responses params :
  emits_at_most is_response 0 (send params).
Proof. run_cases. Qed.

Lemma send_http_request_extends params :
  emits_at_most is_extend_container 0 (send params).
Proof. run_cases. Qed.

(** X15: every response handed to the engine's parser carries, as its
    [search_params], the parameters as the engine's [request] left them. *)
Theorem X15_parser_sees_engine_params query params w w1 params1 :
  request engine query params w = (w1, inr params1) ->
  Forall (fun ev =>
            match ev with
            | EvResponse resp => search_params resp = Some params1
            | _ => True
            end)
    (events (basic query params w)).
Proof.
  intros Hreq. unfold _search_basic. rewrite run_emit, run_bind.
  unfold call. rewrite Hreq. cbn [app].
  destruct (getitem params1 "url") as [e|url]; [by repeat constructor|].
  rewrite run_lift_inr.
  destruct (negb (truthy url)); [by repeat constructor|].
  rewrite run_bind.
  pose proof (send_http_request_responses params1 w1) as Hsend.
  destruct (send params1 w1) as [[w2 t2] [e|resp]]; cbn in Hsend.
  - constructor; [done|]. by apply no_response_Forall.
  - rewrite run_emit, run_bind. unfold call.
    destruct (response engine _ w2) as [w3 [e|results]]; cbn.
    all: constructor; [done|]; apply Forall_app; split;
      [by apply no_response_Forall|by repeat constructor].
Qed.

(** ** The invocation *)

Lemma search_try_extends query params w :
  count is_extend_container
    (events (search_try engine network re_match settings query params w))
  = match outcome (search_try engine network re_match settings query params w)
    with
    | inr _ => 1%nat
    | inl _ => 0%nat
    end.
Proof.
  unfold search_try. rewrite run_bind.
  pose proof (search_basic_bound engine network is_extend_container 0 0
                ltac:(done) send_http_request_extends ltac:(done)
                query params w) as Hb.
  destruct (basic query params w) as [[w1 t1] [e|[params1 results]]];
    cbn in Hb; [cbn; lia|].
  rewrite run_bind.
  set (enrich := if _ && _ then _ else _).
  assert (count is_extend_container (events (enrich w1)) = 0%nat) as He.
  { subst enrich. destruct (_ && _); [|done].
    pose proof (add_forced_sitelinks_bound engine network re_match settings
                  is_extend_container 0 0 ltac:(done)
                  send_http_request_extends ltac:(done) results params1 w1).
    lia. }
  destruct (enrich w1) as [[w2 t2] [e|results']]; cbn in He |- *.
  - rewrite count_app. lia.
  - rewrite !count_app. unfold count at 3. cbn. lia.
Qed.

(** X16: [search] never raises, and every invocation ends in exactly one
    of two ways: the results are handed to the container once, or one
    exception is handled; never both, never neither. *)
Theorem X16_search_never_raises query params w :
  outcome (search_ query params w) = inr tt
  /\ (count is_extend_container (events (search_ query params w))
      + count is_handle_exception (events (search_ query params w)) = 1)%nat.
Proof.
  pose proof (search_try_extends query params w) as Hext.
  pose proof (search_try_handles engine network re_match settings
                query params w) as Hhan.
  unfold search, init_network_in_thread. rewrite run_emit.
  unfold try_except.
  destruct (search_try engine network re_match settings query params w)
    as [[w1 t1] [e|[]]]; cbn in Hext, Hhan.
  - assert (exists b, search_except e w1
                      = (w1, [EvHandleException e b], inr tt)) as [b ->]
      by (unfold search_except; destruct (exn_cls e); by eexists).
    cbn. split; [done|].
    change (EvInitNetwork (name engine) :: t1 ++ [EvHandleException e b])
      with ([EvInitNetwork (name engine)] ++ t1 ++ [EvHandleException e b]).
    rewrite !count_app. unfold count at 1 3 4 6. cbn. lia.
  - cbn. split; [done|].
    change (EvInitNetwork (name engine) :: t1)
      with ([EvInitNetwork (name engine)] ++ t1).
    rewrite !count_app. unfold count at 1 3. cbn. lia.
Qed.

(** X17: when the body of the [try] statement raises, the handled
    exception is the last event of the invocation and its suspend flag is
    set exactly for the classes of the taxonomy - TLS, timeouts, HTTP and
    stream errors, captcha, too many requests, access denied. *)
Theorem X17_suspend_follows_taxonomy query params w w' evs e :
  search_try engine network re_match settings query params w
  = (w', evs, inl e) ->
  search_ query params w
  = (w',
     EvInitNetwork (name engine) :: evs
       ++ [EvHandleException e (classified (exn_cls e))],
     inr tt).
Proof.
  intros Htry. unfold search, init_network_in_thread. rewrite run_emit.
  unfold try_except. rewrite Htry. unfold search_except, handle_exception.
  by destruct (exn_cls e).
Qed.

(** X18: with an empty category list or an empty site list, enrichment is
    not entered at all: the invocation is the basic search followed by the
    hand-over of its results. *)
Theorem X18_enrichment_switched_off query params w w1 evs params1 results :
  force_sitelinks_categories settings = []
  \/ force_sitelink_websites settings = [] ->
  _search_basic engine network query params w
  = (w1, evs, inr (params1, results)) ->
  search engine network re_match settings query params w
  = (w1, EvInitNetwork (name engine) :: evs ++ [EvExtendContainer results],
     inr tt).
Proof.
  intros Hoff Hbasic. unfold search, init_network_in_thread.
  rewrite run_emit. unfold try_except, search_try.
  rewrite run_bind, Hbasic.
  assert ((0 <? Z.of_nat (List.length (force_sitelinks_categories settings)))
          && (0 <? Z.of_nat (List.length (force_sitelink_websites settings)))
          = false) as ->.
  { destruct Hoff as [-> | ->]; cbn; by rewrite ?andb_false_r. }
  by cbn.
Qed.


(** ** Enrichment *)

Lemma any_term_in_query_str terms params q :
  params !! "query" = Some (PStr q) ->
  any_term_in_query terms params
  = inr (existsb (fun term => substring_of term q) terms).
Proof.
  intros Hq. induction terms as [|term terms IH]; [done|].
  cbn [any_term_in_query existsb]. unfold getitem. rewrite Hq. cbn.
  by destruct (substring_of term q).
Qed.

Lemma sites_loop_query_has_term sites search_results params q w :
  params !! "query" = Some (PStr q) ->
  is_Some (params !! "category") ->
  Forall (fun site =>
            existsb (fun term => substring_of term q)
              (website_search_terms site) = true) sites ->
  sites_loop engine network re_match settings sites search_results params w
  = (w, [], inr search_results).
Proof.
  intros Hq [c Hc] Hall. induction Hall as [|site sites Hsite _ IH]; [done|].
  cbn [sites_loop]. unfold getitem. rewrite Hc, run_lift_inr.
  destruct (negb _); [done|].
  by rewrite (any_term_in_query_str _ _ q Hq), run_lift_inr, Hsite.
Qed.

(** X19: when the query text already contains a search term of every
    configured site, enrichment does nothing: no nested search, the
    results are handed back as they came - also when there are none. *)
Theorem X19_query_with_term_is_skipped search_results params q w :
  params !! "query" = Some (PStr q) ->
  is_Some (params !! "category") ->
  Forall (fun site =>
            existsb (fun term => substring_of term q)
              (website_search_terms site) = true)
    (force_sitelink_websites settings) ->
  _add_forced_sitelinks engine network re_match settings
    search_results params w
  = (w, [], inr search_results).
Proof. apply sites_loop_query_has_term. Qed.

Lemma same_but_sitelinks_refl r : same_but_sitelinks r r.
Proof. by intros key dflt _. Qed.

Lemma same_but_sitelinks_trans r1 r2 r3 :
  same_but_sitelinks r1 r2 -> same_but_sitelinks r2 r3 ->
  same_but_sitelinks r1 r3.
Proof.
  intros H12 H23 key dflt Hkey. by rewrite H23, H12.
Qed.

Lemma setitem_sitelinks_same r v r' :
  setitem r "sitelinks" v = inr r' -> same_but_sitelinks r r'.
Proof.
  destruct r; try discriminate. intros [= <-] key dflt Hkey.
  cbn. unfold dict_get. by rewrite lookup_insert_ne.
Qed.

Lemma Forall2_same_refl (l : list pyval) : Forall2 same_but_sitelinks l l.
Proof. induction l; constructor; [apply same_but_sitelinks_refl|done]. Qed.

Lemma scan_results_same params site expression search_results :
  forall w w' evs results,
    scan_results engine network re_match params site expression
      search_results w = (w', evs, inr results) ->
    Forall2 same_but_sitelinks search_results results.
Proof.
  induction search_results as [|result rest IH]; intros w w' evs results.
  - intros [= _ _ <-]. constructor.
  - cbn [scan_results].
    destruct (match_url _ _ _) as [e|[|]]; [done| |].
    + rewrite run_lift_inr.
      destruct (first_item _) as [e|term]; [done|].
      rewrite run_lift_inr, run_bind.
      destruct (sitelinks params term w) as [[w1 t1] [e|links]]; [done|].
      destruct (setitem result "sitelinks" (PList links)) as [e|result'] eqn:Hset;
        [done|].
      intros [= _ _ <-]. constructor.
      * by eapply setitem_sitelinks_same.
      * apply Forall2_same_refl.
    + rewrite run_lift_inr, run_bind.
      destruct (scan_results _ _ _ _ _ _ rest w)
        as [[w1 t1] [e|rest']] eqn:Hrest; [done|].
      intros [= _ _ <-]. constructor; [apply same_but_sitelinks_refl|].
      by eapply IH.
Qed.

Lemma Forall2_same_trans (l1 l2 l3 : list pyval) :
  Forall2 same_but_sitelinks l1 l2 -> Forall2 same_but_sitelinks l2 l3 ->
  Forall2 same_but_sitelinks l1 l3.
Proof.
  intros H12. revert l3. induction H12; intros l3 H23.
  - by inversion H23.
  - inversion H23; subst. constructor; [|by auto].
    by eapply same_but_sitelinks_trans.
Qed.

Lemma sites_loop_same sites :
  forall search_results params w w' evs r,
    sites_loop engine network re_match settings sites (Some search_results)
      params w = (w', evs, inr r) ->
    exists results,
      r = Some results /\ Forall2 same_but_sitelinks search_results results.
Proof.
  induction sites as [|site sites IH]; intros search_results params w w' evs r.
  - intros [= _ _ <-]. eexists; split; [done|]. apply Forall2_same_refl.
  - cbn [sites_loop].
    destruct (getitem params "category") as [e|c]; [done|].
    rewrite run_lift_inr. destruct (negb _); [by apply IH|].
    destruct (any_term_in_query _ _) as [e|[|]];
      [done|rewrite run_lift_inr; by apply IH|].
    rewrite run_lift_inr, run_bind.
    destruct (scan_results _ _ _ _ _ _ search_results w)
      as [[w1 t1] [e|results1]] eqn:Hscan; [done|].
    destruct (sites_loop _ _ _ _ sites (Some results1) params w1)
      as [[w2 t2] r2] eqn:Hloop.
    intros [= _ _ ->].
    destruct (IH _ _ _ _ _ _ Hloop) as (results & -> & Hsame).
    exists results. split; [done|].
    eapply Forall2_same_trans; [|done]. by eapply scan_results_same.
Qed.

(** X20: enrichment that succeeds hands back as many results as it got,
    in the same order, and each of them unchanged outside its [sitelinks]
    entry: every other key reads as before. *)
Theorem X20_enrichment_keeps_results search_results params w w' evs r :
  _add_forced_sitelinks engine network re_match settings
    (Some search_results) params w = (w', evs, inr r) ->
  exists results,
    r = Some results
    /\ List.length results = List.length search_results
    /\ Forall2 same_but_sitelinks search_results results.
Proof.
  intros Hrun. destruct (sites_loop_same _ _ _ _ _ _ _ Hrun)
    as (results & -> & Hsame).
  exists results. split; [done|]. split; [|done].
  symmetry. by eapply Forall2_length.
Qed.

Lemma scan_results_no_match params site expression search_results w :
  Forall (fun result =>
            match_url re_match expression
              (_get_property result "url" (PStr "")) = inr false)
    search_results ->
  scan_results engine network re_match params site expression
    search_results w = (w, [], inr search_results).
Proof.
  induction 1 as [|result rest Hr _ IH]; [done|].
  cbn [scan_results]. by rewrite Hr, run_lift_inr, run_bind, IH.
Qed.

(** X21: when no result URL matches the expression of any site, enrichment
    starts no nested search and hands the results back as they came. *)
Theorem X21_no_match_no_nested_search search_results params q w :
  params !! "query" = Some (PStr q) ->
  is_Some (params !! "category") ->
  Forall (fun site =>
            Forall (fun result =>
                      match_url re_match
                        ("(" +:+ website_url_expression site +:+ ")")
                        (_get_property result "url" (PStr "")) = inr false)
              search_results)
    (force_sitelink_websites settings) ->
  _add_forced_sitelinks engine network re_match settings
    (Some search_results) params w
  = (w, [], inr (Some search_results)).
Proof.
  intros Hq [c Hc]. unfold _add_forced_sitelinks.
  induction 1 as [|site sites Hsite _ IH]; [done|].
  cbn [sites_loop]. unfold getitem. rewrite Hc, run_lift_inr.
  destruct (negb _); [done|].
  rewrite (any_term_in_query_str _ _ q Hq), run_lift_inr.
  destruct (existsb _ _); [done|].
  by rewrite run_bind, scan_results_no_match, IH.
Qed.

(** X22: when the engine leaves the URL of the nested search empty,
    [_get_sitelinks] raises a [TypeError] for the length of [None]: the
    transport is not called and no sitelinks are produced. *)
Theorem X22_nested_empty_url_raises params search_term w q w1 params1 url :
  params !! "query" = Some (PStr q) ->
  request engine (q +:+ " " +:+ search_term)
    (<["category" := PStr "sitelinks"]>
       (<["query" := PStr (q +:+ " " +:+ search_term)]> params)) w
  = (w1, inr params1) ->
  params1 !! "url" = Some url ->
  truthy url = false ->
  sitelinks params search_term w
  = (w1,
     [EvRequest (q +:+ " " +:+ search_term)
        (<["category" := PStr "sitelinks"]>
           (<["query" := PStr (q +:+ " " +:+ search_term)]> params))],
     inl (mkExn TypeError "object of type 'NoneType' has no len()")).
Proof.
  intros Hq Hreq Hurl Hfalsy. unfold _get_sitelinks, getitem.
  rewrite Hq, run_lift_inr. cbn [str_concat]. rewrite run_lift_inr, run_bind.
  change (q +:+ (" " +:+ search_term)) with (q +:+ " " +:+ search_term).
  unfold _search_basic. rewrite run_emit, run_bind. unfold call.
  rewrite Hreq. cbn. unfold getitem. by rewrite Hurl, run_lift_inr, Hfalsy.
Qed.

(** X23: every sitelink [_get_sitelinks] returns has a URL that is not
    [None]. *)
Theorem X23_sitelinks_have_urls params search_term w w' evs links :
  sitelinks params search_term w = (w', evs, inr links) ->
  Forall (fun link => has_url link = true) links.
Proof.
  unfold _get_sitelinks.
  destruct (getitem params "query") as [e|q]; [done|].
  rewrite run_lift_inr.
  destruct (str_concat q _) as [e|sq]; [done|].
  rewrite run_lift_inr, run_bind.
  destruct (basic sq _ w) as [[w1 t1] [e|[params1 [nested|]]]]; [done| |done].
  intros [= _ _ <-]. apply Forall_forall.
  by intros link [_ ?]%list_elem_of_In%filter_In.
Qed.

End Processor.

(** ** The processor on further explicit inputs *)

Import Scenario Cases.

Lemma X8_witness :
  built (Some "en-US,en;q=0.9,*;q=0.5") !! "method"
  = match base_params !! "method" with
    | Some v => Some v
    | None => default_request_params !! "method"
    end.
Proof.
  apply (X8_get_params_overlay true base_params "Mozilla/5.0" en_US).
  - vm_compute. reflexivity.
  - discriminate.
Defined.

Lemma X9_witness :
  header (built None) "User-Agent" = Some (PStr "Mozilla/5.0")
  /\ (false = false \/ locale en_US = None ->
      header (built None) "Accept-Language"
      = header (base_params ∪ default_request_params) "Accept-Language").
Proof.
  apply (X9_get_params_user_agent false base_params "Mozilla/5.0" en_US).
  vm_compute. reflexivity.
Defined.

Lemma X10_witness :
  (exists method,
      two_bodies !! "method" = Some method
      /\ true = negb (eq_str method "GET"))
  /\ two_bodies_args !! "raise_for_httperror"
     = Some (dict_get two_bodies "raise_for_httperror" (PBool true))
  /\ (true = false ->
      two_bodies_args !! "data" = None /\ two_bodies_args !! "json" = None
      /\ two_bodies_args !! "content" = None).
Proof.
  apply (X10_method_selects_transport demo_engine demo_network two_bodies tt
           true (PStr "https://engine.example/api") two_bodies_args []).
  vm_compute. reflexivity.
Defined.

Lemma X11_witness : "json" ∈ request_arg_names.
Proof.
  apply (X11_only_known_keywords demo_engine demo_network two_bodies tt
           true (PStr "https://engine.example/api") two_bodies_args []
           "json" (PDict {["k" := PInt 1]})).
  - vm_compute. reflexivity.
  - vm_compute. reflexivity.
Defined.

Lemma X12_witness :
  _send_http_request demo_engine demo_network with_url tt
  = (tt, [EvSend false (PStr "https://engine.example/") with_url_args],
     inr ok_response).
Proof.
  apply (X12_within_soft_limit demo_engine demo_network with_url tt false
           with_url_args (PStr "https://engine.example/") tt ok_response 0).
  - vm_compute. reflexivity.
  - reflexivity.
  - reflexivity.
  - reflexivity.
  - simpl. lia.
Defined.

Lemma X13_witness :
  _send_http_request demo_engine tls_failing_network with_url tt
  = (tt, [EvSend false (PStr "https://engine.example/") with_url_args],
     inl tls_error).
Proof.
  apply (X13_transport_failure_propagates demo_engine tls_failing_network
           with_url tt false with_url_args (PStr "https://engine.example/")
           tt tls_error).
  - vm_compute. reflexivity.
  - reflexivity.
  - reflexivity.
Defined.

Lemma X14_witness :
  exists k',
    no_auth !! k' = None
    /\ _send_http_request demo_engine demo_network no_auth tt
       = (tt, [], inl (mkExn KeyError k')).
Proof.
  apply (X14_missing_key_raises demo_engine demo_network no_auth tt "auth").
  - unfold required_keys. do 2 right. left.
  - vm_compute. reflexivity.
Defined.

Lemma X15_witness :
  Forall (fun ev =>
            match ev with
            | EvResponse resp => search_params resp = Some general_sent
            | _ => True
            end)
    (events (_search_basic demo_engine demo_network "test"
               (query_params "general") tt)).
Proof.
  apply (X15_parser_sees_engine_params demo_engine demo_network "test"
           (query_params "general") tt tt general_sent).
  reflexivity.
Defined.

Lemma X17_witness :
  search demo_engine tls_failing_network re_match_dotstar (mkSettings [] [])
    "test" (query_params "general") tt
  = (tt,
     EvInitNetwork (name demo_engine) :: failed_events
       ++ [EvHandleException tls_error (classified (exn_cls tls_error))],
     inr tt).
Proof.
  apply (X17_suspend_follows_taxonomy demo_engine tls_failing_network
           re_match_dotstar (mkSettings [] []) "test"
           (query_params "general") tt tt failed_events tls_error).
  vm_compute. reflexivity.
Defined.

Lemma X18_witness :
  search demo_engine demo_network re_match_dotstar
    (mkSettings ["general"] []) "test" (query_params "general") tt
  = (tt,
     EvInitNetwork (name demo_engine) :: general_events
       ++ [EvExtendContainer (Some [R0; R1; R2])],
     inr tt).
Proof.
  apply (X18_enrichment_switched_off demo_engine demo_network
           re_match_dotstar (mkSettings ["general"] []) "test"
           (query_params "general") tt tt general_events general_sent
           (Some [R0; R1; R2])).
  - right. reflexivity.
  - vm_compute. reflexivity.
Defined.

Lemma X19_witness :
  _add_forced_sitelinks demo_engine demo_network re_match_dotstar
    (mkSettings ["general"] [wiki_site]) (Some [R0; R1; R2])
    wiki_query_params tt
  = (tt, [], inr (Some [R0; R1; R2])).
Proof.
  apply (X19_query_with_term_is_skipped demo_engine demo_network
           re_match_dotstar (mkSettings ["general"] [wiki_site])
           (Some [R0; R1; R2]) wiki_query_params "test wiki" tt).
  - vm_compute. reflexivity.
  - exists (PStr "general"). vm_compute. reflexivity.
  - repeat constructor.
Defined.

Lemma X20_witness :
  exists results,
    Some [R0_enriched] = Some results
    /\ List.length results = List.length [R0]
    /\ Forall2 same_but_sitelinks [R0] results.
Proof.
  apply (X20_enrichment_keeps_results demo_engine demo_network
           re_match_dotstar (mkSettings ["sitelinks"] [wiki_site]) [R0]
           (query_params "sitelinks") tt tt (nested_events "sitelinks")).
  vm_compute. reflexivity.
Defined.

Lemma X21_witness :
  _add_forced_sitelinks demo_engine demo_network re_match_shop
    (mkSettings ["general"] [shop_site]) (Some [R0; R2])
    (query_params "general") tt
  = (tt, [], inr (Some [R0; R2])).
Proof.
  apply (X21_no_match_no_nested_search demo_engine demo_network
           re_match_shop (mkSettings ["general"] [shop_site]) [R0; R2]
           (query_params "general") "test" tt).
  - vm_compute. reflexivity.
  - exists (PStr "general"). vm_compute. reflexivity.
  - repeat constructor.
Defined.

Lemma X22_witness :
  _get_sitelinks silent_engine demo_network (query_params "general") "wiki" tt
  = (tt,
     [EvRequest ("test" +:+ " " +:+ "wiki")
        (<["category" := PStr "sitelinks"]>
           (<["query" := PStr ("test" +:+ " " +:+ "wiki")]>
              (query_params "general")))],
     inl (mkExn TypeError "object of type 'NoneType' has no len()")).
Proof.
  apply (X22_nested_empty_url_raises silent_engine demo_network
           (query_params "general") "wiki" tt "test" tt
           (nested_params "general") (PStr "")).
  - vm_compute. reflexivity.
  - reflexivity.
  - vm_compute. reflexivity.
  - reflexivity.
Defined.

Lemma X23_witness : Forall (fun link => has_url link = true) [R2].
Proof.
  apply (X23_sitelinks_have_urls demo_engine demo_network
           (query_params "general") "wiki" tt tt (nested_events "general")).
  vm_compute. reflexivity.
Defined.

End OnlineMore.
